(** * BikeTrax integration: config-entry lifecycle

    A shallow embedding of [custom_components/biketrax/__init__.py]:
    the options migration, [async_setup_entry], [async_unload_entry] and
    the constructor of [BikeTraxBaseEntity], with the properties of the
    specification proved about them.

    Python objects that the module mutates ([hass], [entry]) are threaded
    explicitly through a state-and-exception monad; objects with identity
    (accounts, coordinators, bus listeners) live in heaps indexed by
    address.  A coroutine body is run as one uninterrupted sequence. *)

From stdpp Require Import gmap strings list fin_maps.

Local Open Scope string_scope.
Local Open Scope list_scope.

(** ** Python values held by a config entry *)

Inductive pyval : Type :=
| PyNone
| PyBool (b : bool)
| PyInt (n : Z)
| PyStr (s : string).

#[global] Instance pyval_eq_dec : EqDecision pyval.
Proof. solve_decision. Defined.

(** ** Insertion-ordered dictionaries with string keys

    [entry.data] and [entry.options] are compared through [list(d)], the
    list of keys in insertion order, so the order is part of the model. *)

Module PyDict.

Abbreviation t := (list (string * pyval)).

(** [list(d)] *)
Definition keys (d : t) : list string := d.*1.

(** [d.get(k)] *)
Fixpoint get (k : string) (d : t) : option pyval :=
    match d with
    | [] => None
    | (k', v) :: d' => if decide (k = k') then Some v else get k d'
    end.

(** [k in d] *)
Definition contains (k : string) (d : t) : bool :=
    bool_decide (k ∈ keys d).

(** [d[k] = v]: an existing key keeps its position, a new key goes last. *)
Fixpoint set (k : string) (v : pyval) (d : t) : t :=
    match d with
    | [] => [(k, v)]
    | (k', v') :: d' =>
        if decide (k = k') then (k, v) :: d' else (k', v') :: set k v d'
    end.

(** [del d[k]] for a key that may be absent. *)
Definition remove (k : string) (d : t) : t :=
    filter (λ kv, kv.1 ≠ k) d.

(** [d.pop(k, dflt)]: the value and the dictionary left behind. *)
Definition pop (k : string) (dflt : pyval) (d : t) : pyval * t :=
    (default dflt (get k d), remove k d).

(** [dict(d, **kw)]: a copy of [d] updated with the items of [kw] in
    their order. *)
Definition update (d kw : t) : t :=
    foldl (λ acc kv, set kv.1 kv.2 acc) d kw.

(** [d1 == d2]: as many items, and the same value under every key,
    whatever the order of the keys. *)
Definition eqb (d1 d2 : t) : bool :=
  bool_decide (length d1 = length d2)
  && forallb (λ k, bool_decide (get k d1 = get k d2)) (keys d1 ++ keys d2).

(** What Python guarantees of every dictionary. *)
Definition wf (d : t) : Prop := NoDup (keys d).

End PyDict.

(** ** Exceptions and the state monad *)

Inductive exn : Type :=
| KeyError (key : string)
| ConfigEntryNotReady.

Inductive outcome (A : Type) : Type :=
| Return (a : A)
| Raise (e : exn).
Arguments Return {A} a.
Arguments Raise {A} e.

(** A computation over a state [S] returns or raises; either way the
    state it leaves is kept, as mutations made before a Python exception
    are. *)
Definition M (S A : Type) : Type := S → outcome A * S.

Definition raise {S A} (e : exn) : M S A := λ s, (Raise e, s).
Definition gets {S A} (f : S → A) : M S A := λ s, (Return (f s), s).
Definition modify {S} (f : S → S) : M S unit := λ s, (Return tt, f s).

#[global] Instance M_ret {S} : MRet (M S) := λ A a s, (Return a, s).
#[global] Instance M_bind {S} : MBind (M S) := λ A B k m s,
  match m s with
  | (Return a, s') => k a s'
  | (Raise e, s') => (Raise e, s')
  end.

(** [if b: body] *)
Definition when {S} (b : bool) (body : M S unit) : M S unit :=
  if b then body else mret tt.

(** [d[k]] on a finite map, raising [KeyError] when [k] is absent. *)
Definition getitem {S V} (k : string) (d : gmap string V) : M S V :=
  match d !! k with
  | Some v => mret v
  | None => raise (KeyError k)
  end.

(** ** The host framework's objects *)

(** [homeassistant.const.Platform] *)
Inductive Platform : Type :=
| AIR_QUALITY | ALARM_CONTROL_PANEL | BINARY_SENSOR | BUTTON | CALENDAR
| CAMERA | CLIMATE | COVER | DEVICE_TRACKER | FAN | GEO_LOCATION
| HUMIDIFIER | IMAGE_PROCESSING | LIGHT | LOCK | MAILBOX | MEDIA_PLAYER
| NOTIFY | NUMBER | REMOTE | SCENE | SELECT | SENSOR | SIREN | STT
| SWITCH | TTS | VACUUM | UPDATE | WATER_HEATER | WEATHER.

#[global] Instance Platform_eq_dec : EqDecision Platform.
Proof. solve_decision. Defined.

(** The constants of [const.py], which is not among the sources at hand:
    they are parameters of the development. *)
Class Const : Type := {
  CONF_READ_ONLY : string;
  DATA_DEVICE : string;
  DATA_SUBSCRIPTION : string;
  DATA_TRIP : string;
  DOMAIN : string;
}.

(** [homeassistant.const.CONF_USERNAME], [CONF_PASSWORD] *)
Definition CONF_USERNAME : string := "username".
Definition CONF_PASSWORD : string := "password".

(** A [ConfigEntry]: its id, the two persisted dictionaries, and the
    callbacks registered with [async_on_unload].  The only callbacks this
    module registers are removers of bus listeners, held here by the
    address of the listener they remove. *)
Module ConfigEntry.
Record t : Type := mk {
    entry_id : string;
    data : PyDict.t;
    options : PyDict.t;
    _on_unload : list nat;
  }.
End ConfigEntry.

(** [aiobiketrax.Account]: what the constructor is given. *)
Module Account.
Record t : Type := mk {
    username : pyval;
    password : pyval;
    session : nat;
  }.
End Account.

Inductive CoordinatorKind : Type := DeviceData | TripData | SubscriptionData.

#[global] Instance CoordinatorKind_eq_dec : EqDecision CoordinatorKind.
Proof. solve_decision. Defined.

(** Modelled from the spec: the coordinator classes of [coordinator.py],
    which is not among the sources at hand.  A coordinator is constructed
    from [(hass, account, entry)] and keeps the account handle it was
    given ("three timer-driven coordinator instances sharing one
    authenticated account handle"); the device coordinator owns "a single
    background task (push-update listener) with an externally defined
    start/stop lifecycle", kept here as the flag [background_task]. *)
Module Coordinator.
Record t : Type := mk {
    kind : CoordinatorKind;
    account : nat;
    entry : string;
    last_update_success : bool;
    background_task : bool;
  }.
End Coordinator.

(** [hass]: the shared data dict, the heaps of the objects created by
    this integration, the listeners of [EVENT_HOMEASSISTANT_STOP] (each
    is the closure [_stop], held by the address of the device coordinator
    it captured; a removed listener leaves [None]), the platforms
    forwarded per entry and the log of [async_update_entry] calls. *)
Module HomeAssistant.
Record t : Type := mk {
    data : gmap string (gmap string (gmap string nat));
    accounts : list Account.t;
    coordinators : list Coordinator.t;
    stop_listeners : list (option nat);
    platforms : list (string * list Platform);
    entry_updates : list (string * PyDict.t * PyDict.t);
    clientsession : nat;
  }.
End HomeAssistant.

(** [homeassistant.helpers.entity.DeviceInfo], the fields used. *)
Module DeviceInfo.
Record t : Type := mk {
    identifiers : gset (string * string);
    model : option string;
    name : option string;
  }.
End DeviceInfo.

(** The state a function of signature [(hass, entry)] works on. *)
Record state : Type := State {
  hass : HomeAssistant.t;
  entry : ConfigEntry.t;
}.

Definition with_hass (f : HomeAssistant.t → HomeAssistant.t) (s : state) : state :=
  State (f (hass s)) (entry s).
Definition with_entry (f : ConfigEntry.t → ConfigEntry.t) (s : state) : state :=
  State (hass s) (f (entry s)).

(** ** The host and vendor calls the module makes *)

Definition set_entry_data_options (data options : PyDict.t)
    (e : ConfigEntry.t) : ConfigEntry.t :=
  ConfigEntry.mk (ConfigEntry.entry_id e) data options (ConfigEntry._on_unload e).

Definition add_on_unload (remove : nat) (e : ConfigEntry.t) : ConfigEntry.t :=
  ConfigEntry.mk (ConfigEntry.entry_id e) (ConfigEntry.data e)
    (ConfigEntry.options e) (ConfigEntry._on_unload e ++ [remove]).

Definition set_data (d : gmap string (gmap string (gmap string nat)))
    (h : HomeAssistant.t) : HomeAssistant.t :=
  HomeAssistant.mk d (HomeAssistant.accounts h) (HomeAssistant.coordinators h)
    (HomeAssistant.stop_listeners h) (HomeAssistant.platforms h)
    (HomeAssistant.entry_updates h) (HomeAssistant.clientsession h).

Definition set_accounts (a : list Account.t) (h : HomeAssistant.t) : HomeAssistant.t :=
  HomeAssistant.mk (HomeAssistant.data h) a (HomeAssistant.coordinators h)
    (HomeAssistant.stop_listeners h) (HomeAssistant.platforms h)
    (HomeAssistant.entry_updates h) (HomeAssistant.clientsession h).

Definition set_coordinators (c : list Coordinator.t) (h : HomeAssistant.t) : HomeAssistant.t :=
  HomeAssistant.mk (HomeAssistant.data h) (HomeAssistant.accounts h) c
    (HomeAssistant.stop_listeners h) (HomeAssistant.platforms h)
    (HomeAssistant.entry_updates h) (HomeAssistant.clientsession h).

Definition set_stop_listeners (l : list (option nat)) (h : HomeAssistant.t) : HomeAssistant.t :=
  HomeAssistant.mk (HomeAssistant.data h) (HomeAssistant.accounts h)
    (HomeAssistant.coordinators h) l (HomeAssistant.platforms h)
    (HomeAssistant.entry_updates h) (HomeAssistant.clientsession h).

Definition set_platforms (p : list (string * list Platform)) (h : HomeAssistant.t) : HomeAssistant.t :=
  HomeAssistant.mk (HomeAssistant.data h) (HomeAssistant.accounts h)
    (HomeAssistant.coordinators h) (HomeAssistant.stop_listeners h) p
    (HomeAssistant.entry_updates h) (HomeAssistant.clientsession h).

Definition set_entry_updates (u : list (string * PyDict.t * PyDict.t))
    (h : HomeAssistant.t) : HomeAssistant.t :=
  HomeAssistant.mk (HomeAssistant.data h) (HomeAssistant.accounts h)
    (HomeAssistant.coordinators h) (HomeAssistant.stop_listeners h)
    (HomeAssistant.platforms h) u (HomeAssistant.clientsession h).

Definition set_last_update_success (b : bool) (c : Coordinator.t) : Coordinator.t :=
  Coordinator.mk (Coordinator.kind c) (Coordinator.account c) (Coordinator.entry c)
    b (Coordinator.background_task c).

Definition set_background_task (b : bool) (c : Coordinator.t) : Coordinator.t :=
  Coordinator.mk (Coordinator.kind c) (Coordinator.account c) (Coordinator.entry c)
    (Coordinator.last_update_success c) b.

(** What [entry.data] or [entry.options] is after [async_update_entry]
    was given [new]: the host assigns a mapping only when it differs from
    the current one ([entry.options != options]), so an equal mapping
    leaves the entry its own, in its own key order. *)
Definition assign_if_changed (current new : PyDict.t) : PyDict.t :=
  if PyDict.eqb current new then current else new.

(** [hass.config_entries.async_update_entry(entry, data=data, options=options)]:
    the entry takes each dictionary that differs from the one it has, and
    the call is logged with its arguments. *)
Definition async_update_entry (data options : PyDict.t) : M state unit :=
  modify (λ s,
    State
      (set_entry_updates
         (HomeAssistant.entry_updates (hass s)
            ++ [(ConfigEntry.entry_id (entry s), data, options)])
         (hass s))
      (set_entry_data_options
         (assign_if_changed (ConfigEntry.data (entry s)) data)
         (assign_if_changed (ConfigEntry.options (entry s)) options)
         (entry s))).

(** [entry.data[k]] *)
Definition entry_data_getitem (k : string) : M state pyval :=
  data ← gets (ConfigEntry.data ∘ entry);
  match PyDict.get k data with
  | Some v => mret v
  | None => raise (KeyError k)
  end.

(** [aiohttp_client.async_get_clientsession(hass)] *)
Definition async_get_clientsession : M state nat :=
  gets (HomeAssistant.clientsession ∘ hass).

(** [Account(username, password, session)]: a new object, whose address
    is returned. *)
Definition Account_new (username password : pyval) (session : nat) : M state nat :=
  a ← gets (length ∘ HomeAssistant.accounts ∘ hass);
  modify (with_hass (λ h,
    set_accounts (HomeAssistant.accounts h ++ [Account.mk username password session]) h));;
  mret a.

(** Modelled from the spec: the constructors [DeviceDataUpdateCoordinator],
    [TripDataUpdateCoordinator] and [SubscriptionDataUpdateCoordinator] of
    [coordinator.py], called as [(hass, account, entry)].  A new
    coordinator has fetched nothing and runs no task. *)
Definition Coordinator_new (kind : CoordinatorKind) (account : nat) : M state nat :=
  c ← gets (length ∘ HomeAssistant.coordinators ∘ hass);
  eid ← gets (ConfigEntry.entry_id ∘ entry);
  modify (with_hass (λ h,
    set_coordinators
      (HomeAssistant.coordinators h ++ [Coordinator.mk kind account eid false false]) h));;
  mret c.

Definition alter_coordinator (f : Coordinator.t → Coordinator.t) (c : nat)
    (h : HomeAssistant.t) : HomeAssistant.t :=
  set_coordinators (alter f c (HomeAssistant.coordinators h)) h.

(** [coordinator.async_config_entry_first_refresh()]: the host's first
    fetch, which raises [ConfigEntryNotReady] when the fetch fails.  Whether
    it fails is decided outside the program and given as [ok]. *)
Definition async_config_entry_first_refresh (ok : bool) (c : nat) : M state unit :=
  if ok then modify (with_hass (alter_coordinator (set_last_update_success true) c))
  else raise ConfigEntryNotReady.

(** Modelled from the spec: [start_background_task] and
    [stop_background_task] of the device coordinator in [coordinator.py],
    the "one-line start/stop contract" of the push-update task. *)
Definition start_background_task (c : nat) (h : HomeAssistant.t) : HomeAssistant.t :=
  alter_coordinator (set_background_task true) c h.

(** Modelled from the spec: [stop_background_task] of [coordinator.py],
    the stop half of the same contract. *)
Definition stop_background_task (c : nat) (h : HomeAssistant.t) : HomeAssistant.t :=
  alter_coordinator (set_background_task false) c h.

(** [hass.bus.async_listen_once(EVENT_HOMEASSISTANT_STOP, _stop)], with
    [_stop] closed over [device_coordinator]: the listener is added and
    the callable that removes it is returned. *)
Definition async_listen_once_stop (device_coordinator : nat) : M state nat :=
  l ← gets (length ∘ HomeAssistant.stop_listeners ∘ hass);
  modify (with_hass (λ h,
    set_stop_listeners (HomeAssistant.stop_listeners h ++ [Some device_coordinator]) h));;
  mret l.

(** [entry.async_on_unload(remove)] *)
Definition async_on_unload (remove : nat) : M state unit :=
  modify (with_entry (add_on_unload remove)).

(** [hass.config_entries.async_setup_platforms(entry, platforms)] *)
Definition async_setup_platforms (platforms : list Platform) : M state unit :=
  eid ← gets (ConfigEntry.entry_id ∘ entry);
  modify (with_hass (λ h,
    set_platforms (HomeAssistant.platforms h ++ [(eid, platforms)]) h)).

(** [hass.config_entries.async_unload_platforms(entry, platforms)]: whether
    the platforms unload is the host's answer [ok]; when they do, the
    entry's platforms are gone. *)
Definition async_unload_platforms (ok : bool) (platforms : list Platform) : M state bool :=
  eid ← gets (ConfigEntry.entry_id ∘ entry);
  (if ok then
     modify (with_hass (λ h,
       set_platforms (filter (λ p, p.1 ≠ eid) (HomeAssistant.platforms h)) h))
   else mret tt : M state unit);;
  mret ok.

(** The host fires [EVENT_HOMEASSISTANT_STOP]: every listener still
    registered runs once and is dropped. *)
Definition fire_stop (h : HomeAssistant.t) : HomeAssistant.t :=
  set_stop_listeners
    (const None <$> HomeAssistant.stop_listeners h)
    (foldl (λ h l, from_option (λ c, stop_background_task c h) h l)
       h (HomeAssistant.stop_listeners h)).

(** The host runs the callbacks an entry registered with
    [async_on_unload]: each removes its bus listener. *)
Definition process_on_unload (e : ConfigEntry.t) (h : HomeAssistant.t) : HomeAssistant.t :=
  foldl (λ h l, set_stop_listeners (<[l := None]> (HomeAssistant.stop_listeners h)) h)
    h (ConfigEntry._on_unload e).

(** [hass.data.setdefault(k, d)] *)
Definition hass_data_setdefault (k : string) (d : gmap string (gmap string nat))
    : M state unit :=
  modify (with_hass (λ h,
    match HomeAssistant.data h !! k with
    | Some _ => h
    | None => set_data (<[k := d]> (HomeAssistant.data h)) h
    end)).

(** [hass.data[k][k'] = v] *)
Definition hass_data_setitem2 (k k' : string) (v : gmap string nat) : M state unit :=
  data ← gets (HomeAssistant.data ∘ hass);
  d ← getitem k data;
  modify (with_hass (set_data (<[k := <[k' := v]> d]> data))).

(** [hass.data[k].pop(k')] *)
Definition hass_data_pop2 (k k' : string) : M state (gmap string nat) :=
  data ← gets (HomeAssistant.data ∘ hass);
  d ← getitem k data;
  v ← getitem k' d;
  modify (with_hass (set_data (<[k := delete k' d]> data)));;
  mret v.

(** ** The module *)

Section BikeTrax.

Context {K : Const}.

Definition DEFAULT_OPTIONS : list (string * pyval) :=
  [(CONF_READ_ONLY, PyBool false)].

Definition PLATFORMS : list Platform :=
  [BINARY_SENSOR; DEVICE_TRACKER; SENSOR; SWITCH].

Definition _async_migrate_options_from_data_if_missing : M state unit :=
  data ← gets (ConfigEntry.data ∘ entry);
  options ← gets (ConfigEntry.options ∘ entry);
  if PyDict.contains CONF_READ_ONLY data
     || negb (bool_decide (PyDict.keys options = PyDict.keys DEFAULT_OPTIONS))
  then
    let options := PyDict.update DEFAULT_OPTIONS options in
    let '(v, data) := PyDict.pop CONF_READ_ONLY (PyBool false) data in
    let options := PyDict.set CONF_READ_ONLY v options in
    async_update_entry data options
  else mret tt.

(** The dict literal
    [{DATA_DEVICE: d, DATA_TRIP: t, DATA_SUBSCRIPTION: s}]. *)
Definition coordinators_dict (d t s : nat) : gmap string nat :=
  <[DATA_SUBSCRIPTION := s]> (<[DATA_TRIP := t]> (<[DATA_DEVICE := d]> ∅)).

Definition async_setup_entry (refresh : CoordinatorKind → bool) : M state bool :=
  _async_migrate_options_from_data_if_missing;;
  username ← entry_data_getitem CONF_USERNAME;
  password ← entry_data_getitem CONF_PASSWORD;
  session ← async_get_clientsession;
  account ← Account_new username password session;
  device_coordinator ← Coordinator_new DeviceData account;
  trip_coordinator ← Coordinator_new TripData account;
  subscription_coordinator ← Coordinator_new SubscriptionData account;
  async_config_entry_first_refresh (refresh DeviceData) device_coordinator;;
  async_config_entry_first_refresh (refresh TripData) trip_coordinator;;
  async_config_entry_first_refresh (refresh SubscriptionData) subscription_coordinator;;
  hass_data_setdefault DOMAIN ∅;;
  eid ← gets (ConfigEntry.entry_id ∘ entry);
  hass_data_setitem2 DOMAIN eid
    (coordinators_dict device_coordinator trip_coordinator subscription_coordinator);;
  modify (with_hass (start_background_task device_coordinator));;
  remove ← async_listen_once_stop device_coordinator;
  async_on_unload remove;;
  async_setup_platforms PLATFORMS;;
  mret true.

Definition async_unload_entry (platforms_ok : bool) : M state bool :=
  unload_ok ← async_unload_platforms platforms_ok PLATFORMS;
  when unload_ok (
    eid ← gets (ConfigEntry.entry_id ∘ entry);
    coordinators ← hass_data_pop2 DOMAIN eid;
    device_coordinator ← getitem DATA_DEVICE coordinators;
    modify (with_hass (stop_background_task device_coordinator)));;
  mret unload_ok.

(** *** The host driving the module

    What the host may do to a [hass] that holds this integration: set up
    or unload an entry (with the answers of the outside world), fire the
    stop event, or run the unload callbacks of an entry. *)
Inductive op : Type :=
| Setup (e : ConfigEntry.t) (refresh : CoordinatorKind → bool)
| Unload (e : ConfigEntry.t) (platforms_ok : bool)
| HomeAssistantStop
| OnUnload (e : ConfigEntry.t).

Definition exec (h : HomeAssistant.t) (o : op) : HomeAssistant.t :=
  match o with
  | Setup e refresh => hass (async_setup_entry refresh (State h e)).2
  | Unload e platforms_ok => hass (async_unload_entry platforms_ok (State h e)).2
  | HomeAssistantStop => fire_stop h
  | OnUnload e => process_on_unload e h
  end.

Definition run (ops : list op) (h : HomeAssistant.t) : HomeAssistant.t :=
  foldl exec h ops.

(** Does [o] unload the entry [eid] with the platforms agreeing? *)
Definition unloads (eid : string) (o : op) : bool :=
  match o with
  | Unload e true => bool_decide (ConfigEntry.entry_id e = eid)
  | _ => false
  end.

(** Does [o] set up the entry [eid]? *)
Definition sets_up (eid : string) (o : op) : bool :=
  match o with
  | Setup e _ => bool_decide (ConfigEntry.entry_id e = eid)
  | _ => false
  end.

(** Does [o] run an unload callback that removes the listener [l]? *)
Definition removes_listener (l : nat) (o : op) : bool :=
  match o with
  | OnUnload e => bool_decide (l ∈ ConfigEntry._on_unload e)
  | _ => false
  end.

(** [hass.data[DOMAIN][entry_id]], when both keys are there. *)
Definition entry_coordinators (h : HomeAssistant.t) (eid : string)
    : option (gmap string nat) :=
  HomeAssistant.data h !! DOMAIN ≫= (.!! eid).

(** Is the push-update task of the coordinator at [c] running? *)
Definition task_running (h : HomeAssistant.t) (c : nat) : bool :=
  from_option Coordinator.background_task false (HomeAssistant.coordinators h !! c).

(** The platforms an entry was forwarded to, in the order of the calls. *)
Definition entry_platforms (h : HomeAssistant.t) (eid : string) : list Platform :=
  mjoin (snd <$> filter (λ p, p.1 = eid) (HomeAssistant.platforms h)).

(** [c] is the address of a coordinator of kind [k] made for the entry
    [eid] with the account at [a]. *)
Definition is_coordinator (h : HomeAssistant.t) (c : nat)
    (k : CoordinatorKind) (eid : string) (a : nat) : Prop :=
  ∃ co, HomeAssistant.coordinators h !! c = Some co
        ∧ Coordinator.kind co = k
        ∧ Coordinator.entry co = eid
        ∧ Coordinator.account co = a.

(** [hass.data[DOMAIN][eid]] maps the three keys to three coordinators
    of the entry [eid], one of each kind. *)
Definition coordinators_registered (h : HomeAssistant.t) (eid : string) : Prop :=
  ∃ d t s a,
    entry_coordinators h eid = Some (coordinators_dict d t s)
    ∧ coordinators_dict d t s !! DATA_DEVICE = Some d
    ∧ coordinators_dict d t s !! DATA_TRIP = Some t
    ∧ coordinators_dict d t s !! DATA_SUBSCRIPTION = Some s
    ∧ is_coordinator h d DeviceData eid a
    ∧ is_coordinator h t TripData eid a
    ∧ is_coordinator h s SubscriptionData eid a.

(** The read-only flag as [entry.data] holds it, [False] when absent. *)
Definition data_read_only (e : ConfigEntry.t) : pyval :=
  default (PyBool false) (PyDict.get CONF_READ_ONLY (ConfigEntry.data e)).

(** The flag has moved from [e.data] to [e'.options]. *)
Definition flag_migrated (e e' : ConfigEntry.t) : Prop :=
  PyDict.get CONF_READ_ONLY (ConfigEntry.options e') = Some (data_read_only e)
  ∧ PyDict.get CONF_READ_ONLY (ConfigEntry.data e') = None.

(** The entry after the migration has run on [(h, e)]. *)
Definition migrated (h : HomeAssistant.t) (e : ConfigEntry.t) : ConfigEntry.t :=
  entry (_async_migrate_options_from_data_if_missing (State h e)).2.

(** From [h] to [h'] every coordinator is still at its address, as it
    was or with its background task stopped. *)
Definition coordinators_evolve (h h' : HomeAssistant.t) : Prop :=
  ∀ c co,
    HomeAssistant.coordinators h !! c = Some co →
    HomeAssistant.coordinators h' !! c = Some co
    ∨ HomeAssistant.coordinators h' !! c = Some (set_background_task false co).

(** From the host state [h] on, the task of [c] is not running after
    any [async_unload_entry] of the entry [eid] whose platforms unload,
    whatever the host did before and does after. *)
Definition stopped_after_unload (h : HomeAssistant.t) (eid : string) (c : nat) : Prop :=
  ∀ ops e' ops',
    ConfigEntry.entry_id e' = eid →
    task_running (run (ops ++ Unload e' true :: ops') h) c = false.

(** From the host state [h] on, the task of [c] is not running after
    the stop event has fired, whatever the host did before and does
    after. *)
Definition stopped_after_stop_event (h : HomeAssistant.t) (c : nat) : Prop :=
  ∀ ops ops',
    task_running (run (ops ++ HomeAssistantStop :: ops') h) c = false.

(** Every running background task has a stop listener registered. *)
Definition tasks_covered (h : HomeAssistant.t) : Prop :=
  ∀ c, task_running h c = true → Some c ∈ HomeAssistant.stop_listeners h.

(** Every stop listener holds the address of a coordinator that exists. *)
Definition listeners_valid (h : HomeAssistant.t) : Prop :=
  ∀ c, Some c ∈ HomeAssistant.stop_listeners h →
       (c < length (HomeAssistant.coordinators h))%nat.

(** Every mapping in [hass.data[DOMAIN]] has the key [DATA_DEVICE]. *)
Definition mappings_complete (h : HomeAssistant.t) : Prop :=
  ∀ eid cs, entry_coordinators h eid = Some cs → is_Some (cs !! DATA_DEVICE).

(** Does [o] run unload callbacks? *)
Definition is_on_unload (o : op) : bool :=
  match o with
  | OnUnload _ => true
  | _ => false
  end.

(** What a run of [async_setup_entry] that returns has done. *)
Record setup_done (h : HomeAssistant.t) (e : ConfigEntry.t) (s' : state) : Prop := {
  done_username :
    is_Some (PyDict.get CONF_USERNAME (ConfigEntry.data (migrated h e)));
  done_password :
    is_Some (PyDict.get CONF_PASSWORD (ConfigEntry.data (migrated h e)));
  done_accounts :
    HomeAssistant.accounts (hass s') =
    HomeAssistant.accounts h ++
      [Account.mk
         (default PyNone (PyDict.get CONF_USERNAME (ConfigEntry.data (migrated h e))))
         (default PyNone (PyDict.get CONF_PASSWORD (ConfigEntry.data (migrated h e))))
         (HomeAssistant.clientsession h)];
  done_coordinators :
    HomeAssistant.coordinators (hass s') =
    HomeAssistant.coordinators h ++
      [Coordinator.mk DeviceData (length (HomeAssistant.accounts h))
         (ConfigEntry.entry_id e) true true;
       Coordinator.mk TripData (length (HomeAssistant.accounts h))
         (ConfigEntry.entry_id e) true false;
       Coordinator.mk SubscriptionData (length (HomeAssistant.accounts h))
         (ConfigEntry.entry_id e) true false];
  done_data :
    HomeAssistant.data (hass s') =
    <[DOMAIN :=
        <[ConfigEntry.entry_id e :=
            coordinators_dict
              (length (HomeAssistant.coordinators h))
              (S (length (HomeAssistant.coordinators h)))
              (S (S (length (HomeAssistant.coordinators h))))]>
          (default ∅ (HomeAssistant.data h !! DOMAIN))]>
      (HomeAssistant.data h);
  done_stop_listeners :
    HomeAssistant.stop_listeners (hass s') =
    HomeAssistant.stop_listeners h ++ [Some (length (HomeAssistant.coordinators h))];
  done_platforms :
    HomeAssistant.platforms (hass s') =
    HomeAssistant.platforms h ++ [(ConfigEntry.entry_id e, PLATFORMS)];
  done_entry :
    entry s' =
    add_on_unload (length (HomeAssistant.stop_listeners h)) (migrated h e);
}.

(** What a run of [async_setup_entry] that raises has done: it made
    objects, but registered nothing. *)
Record setup_failed (h : HomeAssistant.t) (e : ConfigEntry.t) (s' : state) : Prop := {
  failed_accounts :
    ∃ new, HomeAssistant.accounts (hass s') = HomeAssistant.accounts h ++ new
           ∧ (length new ≤ 1)%nat;
  failed_coordinators :
    ∃ new, HomeAssistant.coordinators (hass s') = HomeAssistant.coordinators h ++ new
           ∧ Forall (λ co, Coordinator.background_task co = false) new;
  failed_data : HomeAssistant.data (hass s') = HomeAssistant.data h;
  failed_stop_listeners :
    HomeAssistant.stop_listeners (hass s') = HomeAssistant.stop_listeners h;
  failed_platforms : HomeAssistant.platforms (hass s') = HomeAssistant.platforms h;
  failed_entry : entry s' = migrated h e;
}.

(** *** [BikeTraxBaseEntity] *)

(** [aiobiketrax.Device] is the vendor's class: any type with the two
    attributes the entity reads, typed as [DeviceInfo] declares the
    fields they are copied to. *)
Variable Device : Type.
Variable Device_id : Device → string.
Variable Device_name : Device → string.

Record BikeTraxBaseEntity : Type := {
  coordinator : nat;
  device : Device;
  _attrs : list (string * pyval);
  _attr_device_info : DeviceInfo.t;
}.

(** [BikeTraxBaseEntity.__init__(self, coordinator, device)] *)
Definition BikeTraxBaseEntity_init (coordinator : nat) (device : Device)
    : BikeTraxBaseEntity :=
  {| coordinator := coordinator;
     device := device;
     _attrs := [("id", PyStr (Device_id device));
                ("name", PyStr (Device_name device))];
     _attr_device_info :=
       DeviceInfo.mk {[ (DOMAIN, Device_id device) ]}
         (Some (Device_name device)) (Some (Device_name device)) |}.

End BikeTrax.

Arguments BikeTraxBaseEntity Device : clear implicits.
Arguments coordinator {Device} _.
Arguments device {Device} _.
Arguments _attrs {Device} _.
Arguments _attr_device_info {Device} _.

(** ** Concrete values to run the module on *)

(** An instance of the constants. *)
Definition biketrax_const : Const := {|
  CONF_READ_ONLY := "read_only";
  DATA_DEVICE := "device";
  DATA_SUBSCRIPTION := "subscription";
  DATA_TRIP := "trip";
  DOMAIN := "biketrax";
|}.

(** A host that holds nothing yet. *)
Definition hass0 : HomeAssistant.t :=
  HomeAssistant.mk ∅ [] [] [] [] [] 0.

(** An entry as a first version of the integration stored it: the flag
    is in [data], there are no options. *)
Definition entry_legacy : ConfigEntry.t :=
  ConfigEntry.mk "e1"
    [("username", PyStr "rider"); ("password", PyStr "secret");
     ("read_only", PyBool true)]
    [] [].

(** An entry already migrated, with the flag set. *)
Definition entry_migrated : ConfigEntry.t :=
  ConfigEntry.mk "e1"
    [("username", PyStr "rider"); ("password", PyStr "secret")]
    [("read_only", PyBool true)] [].

(** An entry with the flag in [data] and one more option stored. *)
Definition entry_extra_option : ConfigEntry.t :=
  ConfigEntry.mk "e1"
    [("username", PyStr "rider"); ("password", PyStr "secret");
     ("read_only", PyBool true)]
    [("units", PyStr "km")] [].

(** The outside world answering every first refresh with data. *)
Definition refresh_ok : CoordinatorKind → bool := λ _, true.

(** The legacy entry set up on the empty host. *)
Definition sample_setup : outcome bool * state :=
  async_setup_entry (K := biketrax_const) refresh_ok (State hass0 entry_legacy).

(** An entry with the flag among its options, after another option. *)
Definition entry_flag_last : ConfigEntry.t :=
  ConfigEntry.mk "e1"
    [("username", PyStr "rider"); ("password", PyStr "secret")]
    [("units", PyStr "km"); ("read_only", PyBool false)] [].

(** A second entry, already migrated. *)
Definition entry_second : ConfigEntry.t :=
  ConfigEntry.mk "e2"
    [("username", PyStr "guest"); ("password", PyStr "hunter2")]
    [("read_only", PyBool false)] [].

(** The outside world failing the first refresh of the trips. *)
Definition refresh_trip_fails : CoordinatorKind → bool :=
  λ k, match k with TripData => false | _ => true end.

(** The second entry set up after the legacy one. *)
Definition sample_setup_second : outcome bool * state :=
  async_setup_entry (K := biketrax_const) refresh_ok
    (State (hass sample_setup.2) entry_second).

(** The legacy entry set up a second time, without an unload. *)
Definition sample_setup_again : outcome bool * state :=
  async_setup_entry (K := biketrax_const) refresh_ok sample_setup.2.

(** A vendor device with more than the two attributes. *)
Record SampleDevice : Type := {
  sample_id : string;
  sample_name : string;
  sample_battery_level : Z;
}.

(** ** Facts about dictionaries *)

Module PyDictFacts.
Import PyDict.

Lemma contains_get k d : contains k d = true ↔ is_Some (get k d).
Proof.
    unfold contains, keys. rewrite bool_decide_eq_true.
    induction d as [|[k' v] d IH]; simpl.
    - split; [intros H; inversion H | intros [? ?]; discriminate].
    - rewrite elem_of_cons. destruct (decide (k = k')) as [->|Hne].
      + split; eauto.
      + rewrite <- IH. split; [intros [?|?]; [congruence | done] | auto].
Qed.

Lemma contains_false_get k d : contains k d = false ↔ get k d = None.
Proof.
    rewrite <- not_true_iff_false, contains_get, <- eq_None_not_Some. done.
Qed.

Lemma get_None_keys k d : get k d = None ↔ k ∉ keys d.
Proof.
    rewrite <- contains_false_get. unfold contains.
    by rewrite bool_decide_eq_false.
Qed.

Lemma get_remove_eq k d : get k (remove k d) = None.
Proof.
    unfold remove. induction d as [|[k' v] d IH]; [done|].
    rewrite filter_cons. simpl. destruct (decide (k' ≠ k)) as [Hne|Heq]; [|done].
    simpl. by rewrite decide_False by congruence.
Qed.

Lemma get_remove_ne k k' d : k' ≠ k → get k' (remove k d) = get k' d.
Proof.
    intros Hne. unfold remove. induction d as [|[k0 v] d IH]; [done|].
    rewrite filter_cons. simpl. destruct (decide (k0 ≠ k)) as [H0|H0]; simpl.
    - by rewrite IH.
    - apply dec_stable in H0. subst k0. by rewrite decide_False.
Qed.

Lemma get_remove_Some k k' d v : get k' (remove k d) = Some v → get k' d = Some v.
Proof.
  destruct (decide (k' = k)) as [->|Hne].
  - by rewrite get_remove_eq.
  - by rewrite get_remove_ne.
Qed.

Lemma remove_remove k d : remove k (remove k d) = remove k d.
Proof. unfold remove. apply list_filter_filter_l. auto. Qed.

Lemma remove_absent k d : k ∉ keys d → remove k d = d.
Proof.
    unfold remove, keys. induction d as [|[k' v] d IH]; [done|].
    rewrite fmap_cons, not_elem_of_cons. simpl. intros [Hne Hd].
    rewrite filter_cons, decide_True by (simpl; congruence).
    by rewrite IH.
Qed.

Lemma keys_remove k d : keys (remove k d) = filter (λ k', k' ≠ k) (keys d).
Proof.
    unfold remove, keys. induction d as [|[k' v] d IH]; [done|].
    rewrite fmap_cons, !filter_cons. simpl.
    destruct (decide (k' ≠ k)); [rewrite fmap_cons|]; by rewrite IH.
Qed.

Lemma get_set_eq k v d : get k (set k v d) = Some v.
Proof.
    induction d as [|[k' v'] d IH]; simpl.
    - by rewrite decide_True.
    - destruct (decide (k = k')) as [->|Hne]; simpl.
      + by rewrite decide_True.
      + by rewrite decide_False.
Qed.

Lemma get_set_ne k k' v d : k' ≠ k → get k' (set k v d) = get k' d.
Proof.
    intros Hne. induction d as [|[k0 v0] d IH]; simpl.
    - by rewrite decide_False.
    - destruct (decide (k = k0)) as [->|H0]; simpl.
      + by rewrite !decide_False.
      + by rewrite IH.
Qed.

Lemma set_absent k v d : k ∉ keys d → set k v d = d ++ [(k, v)].
Proof.
    unfold keys. induction d as [|[k' v'] d IH]; [done|].
    rewrite fmap_cons, not_elem_of_cons. simpl. intros [Hne Hd].
    rewrite decide_False by done. by rewrite IH.
Qed.

Lemma keys_set_present k v d : k ∈ keys d → keys (set k v d) = keys d.
Proof.
    unfold keys. induction d as [|[k' v'] d IH]; simpl.
    - intros H; inversion H.
    - rewrite elem_of_cons. intros Hk.
      destruct (decide (k = k')) as [->|Hne]; [done|].
      rewrite fmap_cons. simpl. f_equal. apply IH. by destruct Hk.
Qed.

Lemma keys_set k v d :
    keys (set k v d) = if decide (k ∈ keys d) then keys d else keys d ++ [k].
Proof.
    destruct (decide (k ∈ keys d)) as [Hin|Hout].
    - by apply keys_set_present.
    - rewrite set_absent by done. unfold keys. by rewrite fmap_app.
Qed.

Lemma wf_set k v d : wf d → wf (set k v d).
Proof.
    unfold wf. intros Hd. rewrite keys_set. case_decide; [done|].
    apply NoDup_app. split_and!; [done | | apply NoDup_singleton].
    intros x Hx Hx'. apply list_elem_of_singleton in Hx'. by subst.
Qed.

Lemma wf_update d kw : wf d → wf (update d kw).
Proof.
    unfold update. revert d. induction kw as [|[k v] kw IH]; intros d Hd; [done|].
    simpl. apply IH. by apply wf_set.
Qed.

Lemma wf_remove k d : wf d → wf (remove k d).
Proof. unfold wf. rewrite keys_remove. apply NoDup_filter. Qed.

(** With distinct keywords, [dict(d, **kw)] reads a key from [kw]
    first and from [d] otherwise. *)
Lemma get_update k d kw :
    wf kw → get k (update d kw) = from_option Some (get k d) (get k kw).
Proof.
    unfold wf, update, keys. revert d.
    induction kw as [|[k1 v1] kw IH]; intros d Hkw; [done|].
    rewrite fmap_cons in Hkw. apply NoDup_cons in Hkw as [Hk1 Hkw]. simpl in *.
    rewrite IH by done. destruct (decide (k = k1)) as [->|Hne].
    - apply get_None_keys in Hk1. rewrite Hk1. simpl. apply get_set_eq.
    - by rewrite get_set_ne.
Qed.

(** Updating a dictionary with keywords it does not hold appends them. *)
Lemma update_fresh d kw :
    NoDup (keys d ++ keys kw) → update d kw = d ++ kw.
Proof.
    unfold update. revert d.
    induction kw as [|[k v] kw IH]; intros d Hnd; simpl.
    - by rewrite app_nil_r.
    - assert (Hk : k ∉ keys d).
      { apply NoDup_app in Hnd as (_ & Hdisj & _). intros Hin.
        apply (Hdisj k Hin). unfold keys. rewrite fmap_cons. left. }
      rewrite set_absent by done. rewrite IH.
      + by rewrite <- app_assoc.
      + unfold keys in *. rewrite fmap_app, <- app_assoc. simpl.
        by rewrite fmap_cons in Hnd.
Qed.

(** The head of a dictionary stays the head under [set] and [update]. *)
Lemma set_head k0 v0 d k v :
    ∃ v0', set k v ((k0, v0) :: d) = (k0, v0') :: (if decide (k = k0) then d else set k v d).
Proof. simpl. destruct (decide (k = k0)) as [->|]; eauto. Qed.

Lemma update_head k0 v0 d kw :
    ∃ v0' d', update ((k0, v0) :: d) kw = (k0, v0') :: d'.
Proof.
    unfold update. revert v0 d. induction kw as [|[k v] kw IH]; intros v0 d.
    - simpl. eauto.
    - simpl. destruct (decide (k = k0)) as [->|]; apply IH.
Qed.

Lemma keys_update_only k0 d kw :
    keys d = [k0] → (∀ k, k ∈ keys kw → k = k0) → keys (update d kw) = [k0].
Proof.
    unfold update. revert d. induction kw as [|[k v] kw IH]; intros d Hd Hkw; [done|].
    simpl. apply IH.
    - rewrite keys_set_present; [done|].
      rewrite Hd. rewrite (Hkw k); [left|]. unfold keys. rewrite fmap_cons. left.
    - intros k' Hk'. apply Hkw. unfold keys. rewrite fmap_cons. by right.
Qed.

(** With distinct keywords, updating a dictionary headed by [k0] leaves
    [k0] at the head, with the keyword's value if there is one, and puts
    the other keywords after the rest, in their order. *)
Lemma update_cons_wf k0 x acc kw :
  wf kw → k0 ∉ keys acc → (∀ k, k ∈ keys acc → k ∉ keys kw) →
  update ((k0, x) :: acc) kw
  = (k0, default x (get k0 kw)) :: acc ++ remove k0 kw.
Proof.
  unfold wf, update. revert x acc.
  induction kw as [|[k1 v1] kw IH]; intros x acc Hkw Hk0 Hdisj.
  - simpl. by rewrite app_nil_r.
  - unfold keys in Hkw. rewrite fmap_cons in Hkw.
    apply NoDup_cons in Hkw as [Hk1 Hkw]. simpl in Hk1.
    change (foldl _ ((k0, x) :: acc) ((k1, v1) :: kw))
      with (foldl (λ acc kv, set kv.1 kv.2 acc) (set k1 v1 ((k0, x) :: acc)) kw).
    simpl set. destruct (decide (k1 = k0)) as [->|Hne].
    + rewrite IH; [|done|done|].
      * simpl get. rewrite decide_True by done. simpl.
        apply get_None_keys in Hk1. rewrite Hk1. simpl.
        unfold remove. rewrite filter_cons, decide_False; [done|].
        simpl. by intros [].
      * intros k Hk Hk'. apply (Hdisj k Hk). unfold keys. rewrite fmap_cons. by right.
    + assert (Hk1acc : k1 ∉ keys acc).
      { intros Hin. apply (Hdisj k1 Hin). unfold keys. rewrite fmap_cons. left. }
      rewrite set_absent by done. rewrite IH; [|done| |].
      * simpl get. rewrite decide_False by congruence.
        unfold remove. rewrite filter_cons, decide_True by (simpl; congruence).
        by rewrite <- app_assoc.
      * unfold keys. rewrite fmap_app, elem_of_app. simpl.
        intros [?|Hin]; [done|]. apply list_elem_of_singleton in Hin. congruence.
      * unfold keys. intros k. rewrite fmap_app, elem_of_app. simpl.
        intros [Hk|Hk] Hk'.
        -- apply (Hdisj k Hk). unfold keys. rewrite fmap_cons. by right.
        -- apply list_elem_of_singleton in Hk. by subst.
Qed.

(** Equal dictionaries read the same under every key. *)
Lemma eqb_get d1 d2 k : eqb d1 d2 = true → get k d1 = get k d2.
Proof.
  unfold eqb. intros Heq. apply andb_true_iff in Heq as [_ Hall].
  rewrite forallb_forall in Hall.
  destruct (decide (k ∈ keys d1 ++ keys d2)) as [Hin|Hout].
  - apply list_elem_of_In, Hall in Hin. by apply bool_decide_eq_true in Hin.
  - apply not_elem_of_app in Hout as [H1 H2].
    apply get_None_keys in H1, H2. by rewrite H1, H2.
Qed.

Lemma eqb_length d1 d2 : eqb d1 d2 = true → length d1 = length d2.
Proof.
  unfold eqb. intros Heq. apply andb_true_iff in Heq as [Hlen _].
  by apply bool_decide_eq_true in Hlen.
Qed.

Lemma eqb_refl d : eqb d d = true.
Proof.
  unfold eqb. apply andb_true_iff. split; [by apply bool_decide_eq_true|].
  apply forallb_forall. intros k _. by apply bool_decide_eq_true.
Qed.

Lemma filter_length_eq {A} (P : A → Prop) `{∀ x, Decision (P x)} (l : list A) :
  length (filter P l) = length l → filter P l = l.
Proof.
  induction l as [|x l IH]; [done|]. rewrite filter_cons.
  destruct (decide (P x)); simpl.
  - intros Hlen. f_equal. apply IH. lia.
  - intros Hlen. pose proof (length_filter P l). lia.
Qed.

(** A dictionary that loses a key is no longer equal to itself. *)
Lemma eqb_remove k d : eqb d (remove k d) = true → remove k d = d.
Proof.
  intros Heq. apply eqb_length in Heq. unfold remove in *.
  by apply filter_length_eq.
Qed.

End PyDictFacts.

(** ** The options migration *)

Section Migration.

Context {K : Const}.

Lemma assign_if_changed_get current new k :
  PyDict.get k (assign_if_changed current new) = PyDict.get k new.
Proof.
  unfold assign_if_changed. destruct (PyDict.eqb current new) eqn:Heq; [|done].
  by apply PyDictFacts.eqb_get.
Qed.

Lemma assign_if_changed_remove k d :
  assign_if_changed d (PyDict.remove k d) = PyDict.remove k d.
Proof.
  unfold assign_if_changed. destruct (PyDict.eqb d (PyDict.remove k d)) eqn:Heq; [|done].
  symmetry. by apply PyDictFacts.eqb_remove.
Qed.

Lemma assign_if_changed_idem current new :
  assign_if_changed (assign_if_changed current new) new = assign_if_changed current new.
Proof.
  unfold assign_if_changed. destruct (PyDict.eqb current new) eqn:Heq.
  - by rewrite Heq.
  - by rewrite PyDictFacts.eqb_refl.
Qed.

(** The guard of the migration, on an entry. *)
Lemma migrate_unfold h e :
  _async_migrate_options_from_data_if_missing (State h e) =
  if PyDict.contains CONF_READ_ONLY (ConfigEntry.data e)
     || negb (bool_decide (PyDict.keys (ConfigEntry.options e) = [CONF_READ_ONLY]))
  then
    let data := PyDict.remove CONF_READ_ONLY (ConfigEntry.data e) in
    let options :=
      PyDict.set CONF_READ_ONLY (data_read_only e)
        (PyDict.update DEFAULT_OPTIONS (ConfigEntry.options e)) in
    (Return tt,
     State
       (set_entry_updates
          (HomeAssistant.entry_updates h ++ [(ConfigEntry.entry_id e, data, options)]) h)
       (set_entry_data_options data
          (assign_if_changed (ConfigEntry.options e) options) e))
  else (Return tt, State h e).
Proof.
  unfold _async_migrate_options_from_data_if_missing, mbind, M_bind, gets. simpl.
  destruct (_ || _); [|reflexivity].
  unfold PyDict.pop, async_update_entry, modify. simpl.
  by rewrite assign_if_changed_remove.
Qed.

Lemma migrated_unfold h e :
  migrated h e =
  if PyDict.contains CONF_READ_ONLY (ConfigEntry.data e)
     || negb (bool_decide (PyDict.keys (ConfigEntry.options e) = [CONF_READ_ONLY]))
  then
    set_entry_data_options
      (PyDict.remove CONF_READ_ONLY (ConfigEntry.data e))
      (assign_if_changed (ConfigEntry.options e)
         (PyDict.set CONF_READ_ONLY (data_read_only e)
            (PyDict.update DEFAULT_OPTIONS (ConfigEntry.options e))))
      e
  else e.
Proof. unfold migrated. rewrite migrate_unfold. destruct (_ || _); reflexivity. Qed.

(** The migration returns, whatever the entry. *)
Lemma migrate_returns h e :
  (_async_migrate_options_from_data_if_missing (State h e)).1 = Return tt.
Proof. rewrite migrate_unfold. destruct (_ || _); reflexivity. Qed.

(** It changes nothing of [hass] but the log of entry updates, and
    keeps the entry's id and unload callbacks. *)
Lemma migrate_hass h e :
  ∃ u, hass (_async_migrate_options_from_data_if_missing (State h e)).2
       = set_entry_updates u h.
Proof.
  rewrite migrate_unfold. destruct (_ || _); simpl; eauto.
  exists (HomeAssistant.entry_updates h). by destruct h.
Qed.

Lemma migrated_entry_id h e :
  ConfigEntry.entry_id (migrated h e) = ConfigEntry.entry_id e.
Proof. rewrite migrated_unfold. destruct (_ || _); reflexivity. Qed.

Lemma migrated_on_unload h e :
  ConfigEntry._on_unload (migrated h e) = ConfigEntry._on_unload e.
Proof. rewrite migrated_unfold. destruct (_ || _); reflexivity. Qed.

Lemma migrated_data h e :
  ConfigEntry.data (migrated h e) = PyDict.remove CONF_READ_ONLY (ConfigEntry.data e).
Proof.
  rewrite migrated_unfold.
  destruct (PyDict.contains _ _) eqn:Hc; simpl; [done|].
  destruct (negb _); simpl; [done|].
  symmetry. apply PyDictFacts.remove_absent.
  by apply PyDictFacts.get_None_keys, PyDictFacts.contains_false_get.
Qed.

(** A key list equal to that of the defaults means the flag is there. *)
Lemma keys_default_get (d : list (string * pyval)) :
  PyDict.keys d = [CONF_READ_ONLY] → is_Some (PyDict.get CONF_READ_ONLY d).
Proof.
  intros Hk. apply PyDictFacts.contains_get. unfold PyDict.contains.
  rewrite Hk. apply bool_decide_eq_true. left.
Qed.

(** C1 (amended): after the migration the flag is in [entry.options] and
    not in [entry.data]; when the flag was in [entry.data], or the keys
    of [entry.options] were not those of [DEFAULT_OPTIONS], the option
    has the value the flag had in [entry.data] ([False] when absent);
    otherwise the entry is left as it was. *)
Theorem C1_migration_moves_flag h e :
  let e' := migrated h e in
  PyDict.get CONF_READ_ONLY (ConfigEntry.data e') = None
  ∧ is_Some (PyDict.get CONF_READ_ONLY (ConfigEntry.options e'))
  ∧ (PyDict.contains CONF_READ_ONLY (ConfigEntry.data e) = true
     ∨ PyDict.keys (ConfigEntry.options e) ≠ PyDict.keys DEFAULT_OPTIONS
     → flag_migrated e e')
  ∧ (PyDict.contains CONF_READ_ONLY (ConfigEntry.data e) = false
     → PyDict.keys (ConfigEntry.options e) = PyDict.keys DEFAULT_OPTIONS
     → e' = e).
Proof.
  intros e'. subst e'. split_and!.
  - rewrite migrated_data. apply PyDictFacts.get_remove_eq.
  - rewrite migrated_unfold. destruct (_ || _) eqn:Hg; simpl.
    + rewrite assign_if_changed_get, PyDictFacts.get_set_eq. eauto.
    + apply orb_false_iff in Hg as [_ Hk]. apply negb_false_iff in Hk.
      apply bool_decide_eq_true in Hk. by apply keys_default_get.
  - intros Hg. split.
    + rewrite migrated_unfold.
      replace (_ || _) with true.
      * simpl. rewrite assign_if_changed_get. apply PyDictFacts.get_set_eq.
      * symmetry. apply orb_true_iff. destruct Hg as [->|Hk]; [by left|right].
        apply negb_true_iff, bool_decide_eq_false. exact Hk.
    + rewrite migrated_data. apply PyDictFacts.get_remove_eq.
  - intros Hc Hk. rewrite migrated_unfold, Hc. simpl.
    by rewrite bool_decide_eq_true_2.
Qed.

(** The defaults updated with well-formed options: the flag first, then
    the other options as they were. *)
Lemma update_default_wf (options : list (string * pyval)) :
  PyDict.wf options →
  PyDict.update DEFAULT_OPTIONS options
  = (CONF_READ_ONLY, default (PyBool false) (PyDict.get CONF_READ_ONLY options))
      :: PyDict.remove CONF_READ_ONLY options.
Proof.
  intros Hwf. unfold DEFAULT_OPTIONS.
  rewrite PyDictFacts.update_cons_wf; [done|done| |].
  - intros Hin. inversion Hin.
  - intros k Hin. inversion Hin.
Qed.

(** C9: the migration leaves every key of [entry.data] other than
    [CONF_READ_ONLY], and every option other than [CONF_READ_ONLY],
    as it was: the same values under the same keys, in the same order. *)
Theorem C9_migration_frame h e :
  PyDict.wf (ConfigEntry.options e) →
  let e' := migrated h e in
  (∀ k, k ≠ CONF_READ_ONLY →
     PyDict.get k (ConfigEntry.data e') = PyDict.get k (ConfigEntry.data e)
     ∧ PyDict.get k (ConfigEntry.options e') = PyDict.get k (ConfigEntry.options e))
  ∧ PyDict.remove CONF_READ_ONLY (ConfigEntry.data e')
    = PyDict.remove CONF_READ_ONLY (ConfigEntry.data e)
  ∧ PyDict.remove CONF_READ_ONLY (ConfigEntry.options e')
    = PyDict.remove CONF_READ_ONLY (ConfigEntry.options e).
Proof.
  intros Hwf e'.
  assert (Hopt : PyDict.remove CONF_READ_ONLY (ConfigEntry.options e')
                 = PyDict.remove CONF_READ_ONLY (ConfigEntry.options e)).
  { subst e'. rewrite migrated_unfold. destruct (_ || _); [|done]. simpl.
    unfold assign_if_changed. destruct (PyDict.eqb _ _); [done|].
    rewrite update_default_wf by done. simpl. rewrite decide_True by done.
    unfold PyDict.remove at 1. rewrite filter_cons, decide_False.
    - apply PyDictFacts.remove_remove.
    - simpl. by intros []. }
  split_and!; [|subst e'; rewrite migrated_data; apply PyDictFacts.remove_remove|done].
  intros k Hk. split.
  - subst e'. rewrite migrated_data. by apply PyDictFacts.get_remove_ne.
  - rewrite <- (PyDictFacts.get_remove_ne CONF_READ_ONLY k (ConfigEntry.options e')) by done.
    rewrite Hopt. by apply PyDictFacts.get_remove_ne.
Qed.

(** C8 (amended): when [entry.options] holds no key other than
    [CONF_READ_ONLY], or the flag in [entry.data] is [False] or absent,
    a second run of the migration leaves [entry.data] and
    [entry.options] as the first run left them; and when
    [CONF_READ_ONLY] is absent from [entry.data] and the keys of
    [entry.options] are those of [DEFAULT_OPTIONS], the migration
    updates nothing at all. *)
Theorem C8_migration_idempotent h e :
  (∀ k, k ∈ PyDict.keys (ConfigEntry.options e) → k = CONF_READ_ONLY)
  ∨ data_read_only e = PyBool false →
  let s1 := (_async_migrate_options_from_data_if_missing (State h e)).2 in
  let s2 := (_async_migrate_options_from_data_if_missing s1).2 in
  entry s2 = entry s1
  ∧ (PyDict.contains CONF_READ_ONLY (ConfigEntry.data e) = false →
     PyDict.keys (ConfigEntry.options e) = PyDict.keys DEFAULT_OPTIONS →
     _async_migrate_options_from_data_if_missing (State h e) = (Return tt, State h e)).
Proof.
  intros Hhyp s1 s2. split.
  2:{ intros Hc Hk. rewrite migrate_unfold, Hc. simpl.
      by rewrite bool_decide_eq_true_2. }
  subst s2. destruct s1 as [h1 e1] eqn:Hs1. simpl.
  assert (He1 : e1 = migrated h e) by (unfold migrated; fold s1; by rewrite Hs1).
  change (migrated h1 e1 = e1). clear Hs1 s1.
  rewrite (migrated_unfold h1 e1).
  destruct (PyDict.contains CONF_READ_ONLY (ConfigEntry.data e1)) eqn:Hc1.
  { apply PyDictFacts.contains_get in Hc1. rewrite He1, migrated_data in Hc1.
    rewrite PyDictFacts.get_remove_eq in Hc1. by destruct Hc1. }
  simpl. case_bool_decide as Hk1; [done|]. simpl.
  (* the second run fires: the first must have fired too *)
  rewrite migrated_unfold in He1. destruct (_ || _) eqn:Hg.
  2:{ apply orb_false_iff in Hg as [_ Hg]. apply negb_false_iff in Hg.
      apply bool_decide_eq_true in Hg. subst e1. done. }
  destruct (PyDictFacts.update_head CONF_READ_ONLY (PyBool false) [] (ConfigEntry.options e))
    as (v0 & d' & Hupd).
  fold DEFAULT_OPTIONS in Hupd.
  assert (Hwf : PyDict.wf ((CONF_READ_ONLY, v0) :: d')).
  { rewrite <- Hupd. apply PyDictFacts.wf_update. apply NoDup_singleton. }
  rewrite Hupd in He1. simpl in He1. rewrite decide_True in He1 by done.
  destruct Hhyp as [Honly|Hfalse].
  - exfalso. apply Hk1. subst e1. simpl.
    assert (Hnew : PyDict.keys ((CONF_READ_ONLY, data_read_only e) :: d')
                   = [CONF_READ_ONLY]).
    { change (PyDict.keys ((CONF_READ_ONLY, v0) :: d') = [CONF_READ_ONLY]).
      rewrite <- Hupd. apply PyDictFacts.keys_update_only; [done|exact Honly]. }
    unfold assign_if_changed.
    destruct (PyDict.eqb (ConfigEntry.options e) _) eqn:Heq; [|exact Hnew].
    apply PyDictFacts.eqb_length in Heq.
    apply (f_equal length) in Hnew. unfold PyDict.keys in Hnew.
    rewrite length_fmap in Hnew. rewrite Hnew in Heq. simpl in Heq.
    destruct (ConfigEntry.options e) as [|[k v] [|? ?]]; try discriminate.
    unfold PyDict.keys. simpl. f_equal. apply Honly. left.
  - rewrite Hfalse in He1.
    assert (Hro1 : data_read_only e1 = PyBool false).
    { unfold data_read_only. apply PyDictFacts.contains_false_get in Hc1.
      by rewrite Hc1. }
    rewrite Hro1.
    assert (Hnew1 : PyDict.set CONF_READ_ONLY (PyBool false)
                      (PyDict.update DEFAULT_OPTIONS (ConfigEntry.options e1))
                    = (CONF_READ_ONLY, PyBool false) :: d').
    { subst e1. simpl. unfold assign_if_changed.
      destruct (PyDict.eqb (ConfigEntry.options e) _) eqn:Heq.
      - rewrite Hupd. simpl. by rewrite decide_True.
      - unfold PyDict.update, DEFAULT_OPTIONS. simpl. rewrite decide_True by done.
        change (foldl _ [(CONF_READ_ONLY, PyBool false)] d')
          with (PyDict.update [(CONF_READ_ONLY, PyBool false)] d').
        rewrite PyDictFacts.update_fresh; [|exact Hwf].
        simpl. by rewrite decide_True. }
    rewrite Hnew1. subst e1. unfold set_entry_data_options. simpl. f_equal.
    + apply PyDictFacts.remove_remove.
    + apply assign_if_changed_idem.
Qed.

End Migration.

(** ** Setting up and unloading an entry *)

Section Lifecycle.

Context {K : Const}.

(** Unfold the monad and the host calls, down to the reads of the state
    that decide the path taken. *)
Ltac mrun :=
  cbv beta iota zeta delta
    [async_setup_entry async_unload_entry entry_data_getitem
     async_get_clientsession Account_new Coordinator_new
     async_config_entry_first_refresh hass_data_setdefault hass_data_setitem2
     hass_data_pop2 async_listen_once_stop async_on_unload
     async_setup_platforms async_unload_platforms when mbind M_bind mret M_ret
     gets modify raise getitem with_hass with_entry compose hass entry fst snd].

Lemma length_app_1 {A} (l : list A) x : length (l ++ [x]) = S (length l).
Proof. rewrite length_app. simpl. lia. Qed.

Lemma length_app_2 {A} (l : list A) x y :
  length ((l ++ [x]) ++ [y]) = S (S (length l)).
Proof. by rewrite !length_app_1. Qed.

Lemma lookup_app_three {A} (l : list A) x y z :
  (l ++ [x; y; z]) !! length l = Some x
  ∧ (l ++ [x; y; z]) !! S (length l) = Some y
  ∧ (l ++ [x; y; z]) !! S (S (length l)) = Some z.
Proof.
  split_and!; rewrite lookup_app_r by lia.
  - by rewrite Nat.sub_diag.
  - by replace (S (length l) - length l) with 1 by lia.
  - by replace (S (S (length l)) - length l) with 2 by lia.
Qed.

Lemma alter_app_0 {A} (f : A → A) l x r :
  alter f (length l) (l ++ x :: r) = l ++ f x :: r.
Proof.
  rewrite <- (Nat.add_0_r (length l)). by rewrite alter_app_r.
Qed.

Lemma alter_app_1 {A} (f : A → A) l x y r :
  alter f (S (length l)) (l ++ x :: y :: r) = l ++ x :: f y :: r.
Proof.
  replace (S (length l)) with (length l + 1) by lia. by rewrite alter_app_r.
Qed.

Lemma alter_app_2 {A} (f : A → A) l x y z r :
  alter f (S (S (length l))) (l ++ x :: y :: z :: r) = l ++ x :: y :: f z :: r.
Proof.
  replace (S (S (length l))) with (length l + 2) by lia. by rewrite alter_app_r.
Qed.

Lemma setup_cases refresh h e :
  let r := async_setup_entry refresh (State h e) in
  (r.1 = Return true ∧ setup_done h e r.2)
  ∨ (∃ ex, r.1 = Raise ex ∧ setup_failed h e r.2).
Proof.
  intros r. subst r.
  destruct (migrate_hass h e) as [upd Hmh].
  pose proof (migrate_returns h e) as Hmr.
  pose proof (eq_refl (migrated h e)) as Hem. unfold migrated at 1 in Hem.
  pose proof (migrated_entry_id h e) as Hid.
  mrun.
  destruct (_async_migrate_options_from_data_if_missing (State h e)) as [o [hm em]].
  simpl in Hmh, Hmr, Hem. subst o hm. rewrite <- Hem in Hid.
  (* the paths that raise leave some new objects behind *)
  assert (Hfail : ∀ ex (h' : HomeAssistant.t) newa newc,
            HomeAssistant.accounts h' = HomeAssistant.accounts h ++ newa →
            (length newa ≤ 1)%nat →
            HomeAssistant.coordinators h' = HomeAssistant.coordinators h ++ newc →
            Forall (λ co, Coordinator.background_task co = false) newc →
            HomeAssistant.data h' = HomeAssistant.data h →
            HomeAssistant.stop_listeners h' = HomeAssistant.stop_listeners h →
            HomeAssistant.platforms h' = HomeAssistant.platforms h →
            ∃ ex0, (@Raise bool ex, State h' em).1 = Raise ex0
                   ∧ setup_failed h e (@Raise bool ex, State h' em).2).
  { intros ex h' newa newc Ha Hla Hc Hfc Hda Hli Hpl. exists ex. split; [done|].
    constructor; simpl; eauto. }
  destruct (PyDict.get CONF_USERNAME (ConfigEntry.data em)) as [u|] eqn:Hu.
  2:{ right. apply (Hfail _ _ [] []); simpl; rewrite ?app_nil_r; auto. }
  destruct (PyDict.get CONF_PASSWORD (ConfigEntry.data em)) as [p|] eqn:Hp.
  2:{ right. apply (Hfail _ _ [] []); simpl; rewrite ?app_nil_r; auto. }
  set (a := length (HomeAssistant.accounts h)).
  set (eid := ConfigEntry.entry_id em).
  destruct (refresh DeviceData).
  2:{ right.
      apply (Hfail _ _ [Account.mk u p (HomeAssistant.clientsession h)]
               [Coordinator.mk DeviceData a eid false false;
                Coordinator.mk TripData a eid false false;
                Coordinator.mk SubscriptionData a eid false false]);
        simpl; auto.
      by rewrite <- !app_assoc. }
  destruct (refresh TripData).
  2:{ right.
      apply (Hfail _ _ [Account.mk u p (HomeAssistant.clientsession h)]
               [Coordinator.mk DeviceData a eid true false;
                Coordinator.mk TripData a eid false false;
                Coordinator.mk SubscriptionData a eid false false]);
        simpl; auto.
      rewrite <- !app_assoc. simpl. by rewrite alter_app_0. }
  destruct (refresh SubscriptionData).
  2:{ right.
      apply (Hfail _ _ [Account.mk u p (HomeAssistant.clientsession h)]
               [Coordinator.mk DeviceData a eid true false;
                Coordinator.mk TripData a eid true false;
                Coordinator.mk SubscriptionData a eid false false]);
        simpl; auto.
      rewrite length_app_1, <- !app_assoc. simpl.
      by rewrite alter_app_0, alter_app_1. }
  left. clear Hfail. subst a eid. simpl.
  destruct (HomeAssistant.data h !! DOMAIN) as [d|] eqn:Hd; simpl.
  - rewrite Hd. simpl. split; [done|].
    constructor; simpl; rewrite <- ?Hem, ?Hu, ?Hp, ?Hid; simpl; eauto.
    + rewrite !length_app_1, <- !app_assoc. simpl.
      by rewrite alter_app_0, alter_app_1, alter_app_2, alter_app_0.
    + by rewrite !length_app_1, Hd.
  - rewrite lookup_insert_eq. simpl. split; [done|].
    constructor; simpl; rewrite <- ?Hem, ?Hu, ?Hp, ?Hid; simpl; eauto.
    + rewrite !length_app_1, <- !app_assoc. simpl.
      by rewrite alter_app_0, alter_app_1, alter_app_2, alter_app_0.
    + by rewrite insert_insert_eq, !length_app_1, Hd.
Qed.

(** [async_unload_entry] when the platforms do not unload. *)
Lemma unload_refused h e :
  async_unload_entry false (State h e) = (Return false, State h e).
Proof. mrun. by destruct h. Qed.

(** [async_unload_entry] when the platforms unload: the three reads that
    may raise, and the state each path leaves. *)
Lemma unload_agreed h e :
  async_unload_entry true (State h e) =
  let eid := ConfigEntry.entry_id e in
  let hp :=
    set_platforms (filter (λ p, p.1 ≠ eid) (HomeAssistant.platforms h)) h in
  match HomeAssistant.data h !! DOMAIN with
  | None => (Raise (KeyError DOMAIN), State hp e)
  | Some d =>
      match d !! eid with
      | None => (Raise (KeyError eid), State hp e)
      | Some coordinators =>
          let hd := set_data (<[DOMAIN := delete eid d]> (HomeAssistant.data h)) hp in
          match coordinators !! DATA_DEVICE with
          | None => (Raise (KeyError DATA_DEVICE), State hd e)
          | Some device_coordinator =>
              (Return true, State (stop_background_task device_coordinator hd) e)
          end
      end
  end.
Proof.
  mrun. simpl.
  destruct (HomeAssistant.data h !! DOMAIN) as [d|]; [|done].
  destruct (d !! ConfigEntry.entry_id e) as [cs|]; [|done].
  destruct (cs !! DATA_DEVICE); done.
Qed.

Lemma setup_returns_done refresh h e b s1 :
  async_setup_entry refresh (State h e) = (Return b, s1) →
  b = true ∧ setup_done h e s1.
Proof.
  intros Hrun. destruct (setup_cases refresh h e) as [[Hr Hd]|(ex & Hr & _)];
    rewrite Hrun in *; simpl in *; [|discriminate].
  by injection Hr as ->.
Qed.

Lemma entry_coordinators_done h e s1 :
  setup_done h e s1 →
  entry_coordinators (hass s1) (ConfigEntry.entry_id e)
  = Some (coordinators_dict
            (length (HomeAssistant.coordinators h))
            (S (length (HomeAssistant.coordinators h)))
            (S (S (length (HomeAssistant.coordinators h))))).
Proof.
  intros Hd. unfold entry_coordinators. rewrite (done_data _ _ _ Hd).
  rewrite lookup_insert_eq. simpl. by rewrite lookup_insert_eq.
Qed.

Lemma entry_coordinators_done_ne h e s1 eid :
  setup_done h e s1 → eid ≠ ConfigEntry.entry_id e →
  entry_coordinators (hass s1) eid = entry_coordinators h eid.
Proof.
  intros Hd Hne. unfold entry_coordinators. rewrite (done_data _ _ _ Hd).
  rewrite lookup_insert_eq. simpl. rewrite lookup_insert_ne by done.
  destruct (HomeAssistant.data h !! DOMAIN); simpl; [done|apply lookup_empty].
Qed.

(** The device coordinator is always under its key in the dict literal. *)
Lemma coordinators_dict_device d t s :
  is_Some (coordinators_dict d t s !! DATA_DEVICE).
Proof.
  unfold coordinators_dict. rewrite !lookup_insert.
  repeat case_decide; eauto; congruence.
Qed.

(** C10: when the platforms do not unload, [async_unload_entry] returns
    [False] and leaves everything as it was: [hass.data] still holds the
    entry's coordinators, and no background task is stopped. *)
Theorem C10_unload_failure_atomic h e :
  let r := async_unload_entry false (State h e) in
  r.1 = Return false
  ∧ HomeAssistant.data (hass r.2) = HomeAssistant.data h
  ∧ entry_coordinators (hass r.2) (ConfigEntry.entry_id e)
    = entry_coordinators h (ConfigEntry.entry_id e)
  ∧ (∀ c, task_running (hass r.2) c = task_running h c)
  ∧ r.2 = State h e.
Proof. intros r. subst r. rewrite unload_refused. by simpl. Qed.

(** C4: after [async_setup_entry] has returned, [async_unload_entry]
    with the platforms unloading returns [True] and leaves no mapping
    for the entry in [hass.data[DOMAIN]]; the mappings of the other
    entries are those from before the setup. *)
Theorem C4_setup_unload_roundtrip refresh h e s1 :
  async_setup_entry refresh (State h e) = (Return true, s1) →
  ∃ s2,
    async_unload_entry true s1 = (Return true, s2)
    ∧ entry_coordinators (hass s2) (ConfigEntry.entry_id e) = None
    ∧ (∀ eid, eid ≠ ConfigEntry.entry_id e →
         entry_coordinators (hass s2) eid = entry_coordinators h eid)
    ∧ (entry_coordinators h (ConfigEntry.entry_id e) = None →
         ∀ eid, entry_coordinators (hass s2) eid = entry_coordinators h eid).
Proof.
  intros Hrun. apply setup_returns_done in Hrun as [_ Hd].
  destruct s1 as [h1 e1].
  assert (Hid : ConfigEntry.entry_id e1 = ConfigEntry.entry_id e).
  { pose proof (done_entry _ _ _ Hd) as He. simpl in He. rewrite He. simpl.
    apply migrated_entry_id. }
  pose proof (done_data _ _ _ Hd) as Hdata. simpl in Hdata.
  rewrite unload_agreed. simpl. rewrite Hid, Hdata, lookup_insert_eq.
  rewrite lookup_insert_eq.
  destruct (coordinators_dict_device (length (HomeAssistant.coordinators h))
              (S (length (HomeAssistant.coordinators h)))
              (S (S (length (HomeAssistant.coordinators h))))) as [dc ->].
  eexists. split; [reflexivity|]. simpl.
  assert (Hother : ∀ eid, eid ≠ ConfigEntry.entry_id e →
            entry_coordinators
              (stop_background_task dc
                 (set_data
                    (<[DOMAIN:=delete (ConfigEntry.entry_id e)
                         (<[ConfigEntry.entry_id e:=
                              coordinators_dict (length (HomeAssistant.coordinators h))
                                (S (length (HomeAssistant.coordinators h)))
                                (S (S (length (HomeAssistant.coordinators h))))]>
                            (default ∅ (HomeAssistant.data h !! DOMAIN)))]>
                       (<[DOMAIN:=<[ConfigEntry.entry_id e:=
                              coordinators_dict (length (HomeAssistant.coordinators h))
                                (S (length (HomeAssistant.coordinators h)))
                                (S (S (length (HomeAssistant.coordinators h))))]>
                            (default ∅ (HomeAssistant.data h !! DOMAIN))]>
                          (HomeAssistant.data h)))
                    (set_platforms
                       (filter (λ p, p.1 ≠ ConfigEntry.entry_id e)
                          (HomeAssistant.platforms h1)) h1))) eid
            = entry_coordinators h eid).
  { intros eid Hne. unfold entry_coordinators. simpl.
    rewrite lookup_insert_eq. simpl.
    rewrite lookup_delete_ne, lookup_insert_ne by done.
    destruct (HomeAssistant.data h !! DOMAIN); simpl; [done|apply lookup_empty]. }
  assert (Hself : entry_coordinators
              (stop_background_task dc
                 (set_data
                    (<[DOMAIN:=delete (ConfigEntry.entry_id e)
                         (<[ConfigEntry.entry_id e:=
                              coordinators_dict (length (HomeAssistant.coordinators h))
                                (S (length (HomeAssistant.coordinators h)))
                                (S (S (length (HomeAssistant.coordinators h))))]>
                            (default ∅ (HomeAssistant.data h !! DOMAIN)))]>
                       (<[DOMAIN:=<[ConfigEntry.entry_id e:=
                              coordinators_dict (length (HomeAssistant.coordinators h))
                                (S (length (HomeAssistant.coordinators h)))
                                (S (S (length (HomeAssistant.coordinators h))))]>
                            (default ∅ (HomeAssistant.data h !! DOMAIN))]>
                          (HomeAssistant.data h)))
                    (set_platforms
                       (filter (λ p, p.1 ≠ ConfigEntry.entry_id e)
                          (HomeAssistant.platforms h1)) h1))) (ConfigEntry.entry_id e)
            = None).
  { unfold entry_coordinators. simpl. rewrite lookup_insert_eq. simpl.
    apply lookup_delete_eq. }
  split_and!; [exact Hself|exact Hother|].
  intros Hnone eid. destruct (decide (eid = ConfigEntry.entry_id e)) as [->|Hne].
  - by rewrite Hself, Hnone.
  - by apply Hother.
Qed.

(** *** How the coordinators evolve *)

Lemma coordinators_evolve_refl h : coordinators_evolve h h.
Proof. intros c co Hc. by left. Qed.

Lemma coordinators_evolve_trans h1 h2 h3 :
  coordinators_evolve h1 h2 → coordinators_evolve h2 h3 → coordinators_evolve h1 h3.
Proof.
  intros H12 H23 c co Hc.
  destruct (H12 c co Hc) as [H2|H2]; destruct (H23 _ _ H2) as [H3|H3]; auto.
Qed.

Lemma coordinators_evolve_same h h' :
  HomeAssistant.coordinators h' = HomeAssistant.coordinators h →
  coordinators_evolve h h'.
Proof. intros Heq c co Hc. left. by rewrite Heq. Qed.

Lemma coordinators_evolve_app h h' new :
  HomeAssistant.coordinators h' = HomeAssistant.coordinators h ++ new →
  coordinators_evolve h h'.
Proof. intros Heq c co Hc. left. rewrite Heq. by apply lookup_app_l_Some. Qed.

Lemma coordinators_evolve_stop c h :
  coordinators_evolve h (stop_background_task c h).
Proof.
  intros c' co Hc. unfold stop_background_task, alter_coordinator. simpl.
  destruct (decide (c = c')) as [->|Hne].
  - right. by rewrite list_lookup_alter_eq, Hc.
  - left. by rewrite list_lookup_alter_ne.
Qed.

Lemma coordinators_evolve_stop_after c h h' :
  HomeAssistant.coordinators h' = HomeAssistant.coordinators h →
  coordinators_evolve h (stop_background_task c h').
Proof.
  intros Heq. eapply coordinators_evolve_trans;
    [by apply coordinators_evolve_same|apply coordinators_evolve_stop].
Qed.

Lemma task_running_stop c h : task_running (stop_background_task c h) c = false.
Proof.
  unfold task_running, stop_background_task, alter_coordinator. simpl.
  rewrite list_lookup_alter_eq. by destruct (_ !! c).
Qed.

(** A task that does not run is not started again. *)
Lemma coordinators_evolve_stopped h h' c :
  coordinators_evolve h h' →
  is_Some (HomeAssistant.coordinators h !! c) →
  task_running h c = false → task_running h' c = false.
Proof.
  intros Hev [co Hco]. unfold task_running. rewrite Hco. simpl. intros Hoff.
  destruct (Hev c co Hco) as [-> | ->]; simpl; done.
Qed.

Lemma coordinators_evolve_is_Some h h' c :
  coordinators_evolve h h' →
  is_Some (HomeAssistant.coordinators h !! c) →
  is_Some (HomeAssistant.coordinators h' !! c).
Proof. intros Hev [co Hco]. destruct (Hev c co Hco) as [-> | ->]; eauto. Qed.

Lemma coordinators_evolve_is_coordinator h h' c k eid a :
  coordinators_evolve h h' →
  is_coordinator h c k eid a → is_coordinator h' c k eid a.
Proof.
  intros Hev (co & Hco & Hk & He & Ha).
  destruct (Hev c co Hco) as [Hc'|Hc']; eexists; (split; [exact Hc'|]); done.
Qed.

(** The stop event stops every coordinator a listener holds, and
    touches nothing else. *)
Lemma foldl_stop_evolve (ls : list (option nat)) h :
  coordinators_evolve h
    (foldl (λ h l, from_option (λ c, stop_background_task c h) h l) h ls).
Proof.
  revert h. induction ls as [|l ls IH]; intros h; simpl.
  - apply coordinators_evolve_refl.
  - eapply coordinators_evolve_trans; [|apply IH].
    destruct l; simpl; [apply coordinators_evolve_stop|apply coordinators_evolve_refl].
Qed.

Lemma foldl_stop_data (ls : list (option nat)) h :
  HomeAssistant.data
    (foldl (λ h l, from_option (λ c, stop_background_task c h) h l) h ls)
  = HomeAssistant.data h.
Proof.
  revert h. induction ls as [|l ls IH]; intros h; simpl; [done|].
  rewrite IH. by destruct l.
Qed.

Lemma foldl_stop_stops (ls : list (option nat)) h c :
  Some c ∈ ls →
  task_running
    (foldl (λ h l, from_option (λ c, stop_background_task c h) h l) h ls) c
  = false.
Proof.
  revert h. induction ls as [|l ls IH]; intros h Hin; simpl.
  - inversion Hin.
  - apply elem_of_cons in Hin as [<-|Hin]; [|by apply IH]. simpl.
    destruct (HomeAssistant.coordinators (stop_background_task c h) !! c) eqn:Hc.
    + eapply coordinators_evolve_stopped;
        [apply foldl_stop_evolve|by rewrite Hc|apply task_running_stop].
    + pose proof (foldl_stop_evolve ls (stop_background_task c h)) as Hev.
      unfold task_running.
      destruct (HomeAssistant.coordinators (foldl _ _ ls) !! c) eqn:Hc'; [|done].
      exfalso.
      assert (Hlen : length (HomeAssistant.coordinators
                 (foldl (λ h l, from_option (λ c, stop_background_task c h) h l)
                    (stop_background_task c h) ls))
              = length (HomeAssistant.coordinators (stop_background_task c h))).
      { clear. generalize (stop_background_task c h). induction ls as [|l ls IH];
          intros h'; simpl; [done|]. rewrite IH. destruct l; simpl; [|done].
        unfold alter_coordinator. simpl. apply length_alter. }
      apply lookup_lt_Some in Hc'. apply lookup_ge_None in Hc. lia.
Qed.

Lemma fire_stop_evolve h : coordinators_evolve h (fire_stop h).
Proof.
  unfold fire_stop. eapply coordinators_evolve_trans; [apply foldl_stop_evolve|].
  by apply coordinators_evolve_same.
Qed.

Lemma fire_stop_data h : HomeAssistant.data (fire_stop h) = HomeAssistant.data h.
Proof. unfold fire_stop. simpl. apply foldl_stop_data. Qed.

Lemma fire_stop_stops h l c :
  HomeAssistant.stop_listeners h !! l = Some (Some c) →
  task_running (fire_stop h) c = false.
Proof.
  intros Hl. unfold fire_stop.
  change (task_running (set_stop_listeners ?x ?h') c) with (task_running h' c).
  apply foldl_stop_stops. by eapply list_elem_of_lookup_2.
Qed.

(** Running unload callbacks touches the listeners only. *)
Lemma process_on_unload_coordinators e h :
  HomeAssistant.coordinators (process_on_unload e h) = HomeAssistant.coordinators h.
Proof.
  unfold process_on_unload. generalize (ConfigEntry._on_unload e). intros ls.
  revert h. induction ls as [|l ls IH]; intros h; simpl; [done|]. by rewrite IH.
Qed.

Lemma process_on_unload_data e h :
  HomeAssistant.data (process_on_unload e h) = HomeAssistant.data h.
Proof.
  unfold process_on_unload. generalize (ConfigEntry._on_unload e). intros ls.
  revert h. induction ls as [|l ls IH]; intros h; simpl; [done|]. by rewrite IH.
Qed.

Lemma process_on_unload_listener e h l :
  l ∉ ConfigEntry._on_unload e →
  HomeAssistant.stop_listeners (process_on_unload e h) !! l
  = HomeAssistant.stop_listeners h !! l.
Proof.
  unfold process_on_unload. generalize (ConfigEntry._on_unload e). intros ls.
  revert h. induction ls as [|l' ls IH]; intros h Hl; simpl; [done|].
  apply not_elem_of_cons in Hl as [Hne Hl].
  rewrite IH by done. simpl. by apply list_lookup_insert_ne.
Qed.

(** *** One step of the host *)

Lemma setup_evolve refresh h e :
  coordinators_evolve h (hass (async_setup_entry refresh (State h e)).2).
Proof.
  destruct (setup_cases refresh h e) as [[_ Hd]|(ex & _ & Hf)].
  - eapply coordinators_evolve_app, (done_coordinators _ _ _ Hd).
  - destruct (failed_coordinators _ _ _ Hf) as (new & Hnew & _).
    eapply coordinators_evolve_app, Hnew.
Qed.

Lemma unload_evolve ok h e :
  coordinators_evolve h (hass (async_unload_entry ok (State h e)).2).
Proof.
  destruct ok; [|rewrite unload_refused; apply coordinators_evolve_refl].
  rewrite unload_agreed. simpl.
  destruct (HomeAssistant.data h !! DOMAIN) as [d|];
    [|by apply coordinators_evolve_same].
  destruct (d !! ConfigEntry.entry_id e) as [cs|];
    [|by apply coordinators_evolve_same].
  destruct (cs !! DATA_DEVICE) as [dc|]; simpl;
    [by apply coordinators_evolve_stop_after|by apply coordinators_evolve_same].
Qed.

Lemma exec_evolve h o : coordinators_evolve h (exec h o).
Proof.
  destruct o as [e refresh|e ok| |e]; simpl.
  - apply setup_evolve.
  - apply unload_evolve.
  - apply fire_stop_evolve.
  - apply coordinators_evolve_same, process_on_unload_coordinators.
Qed.

Lemma run_app ops ops' h : run (ops ++ ops') h = run ops' (run ops h).
Proof. unfold run. apply foldl_app. Qed.

Lemma run_evolve ops h : coordinators_evolve h (run ops h).
Proof.
  revert h. induction ops as [|o ops IH]; intros h; simpl.
  - apply coordinators_evolve_refl.
  - eapply coordinators_evolve_trans; [apply exec_evolve|apply IH].
Qed.

(** An invariant of the steps allowed by [Q] holds along a run of them. *)
Lemma run_preserves (P : HomeAssistant.t → Prop) (Q : op → Prop) ops h :
  (∀ h o, Q o → P h → P (exec h o)) →
  Forall Q ops → P h → P (run ops h).
Proof.
  intros Hstep. revert h. induction ops as [|o ops IH]; intros h Hops HP; [done|].
  apply Forall_cons in Hops as [Ho Hops]. simpl. apply IH; [done|]. by apply Hstep.
Qed.

Lemma setup_entry_coordinators refresh h e eid :
  eid ≠ ConfigEntry.entry_id e →
  entry_coordinators (hass (async_setup_entry refresh (State h e)).2) eid
  = entry_coordinators h eid.
Proof.
  intros Hne. destruct (setup_cases refresh h e) as [[_ Hd]|(ex & _ & Hf)].
  - by apply (entry_coordinators_done_ne h e).
  - unfold entry_coordinators. by rewrite (failed_data _ _ _ Hf).
Qed.

Lemma entry_coordinators_pop h h' d eid eid' :
  HomeAssistant.data h !! DOMAIN = Some d →
  HomeAssistant.data h' = <[DOMAIN := delete eid d]> (HomeAssistant.data h) →
  entry_coordinators h' eid' =
  if decide (eid = eid') then None else entry_coordinators h eid'.
Proof.
  intros Hd Hh'. unfold entry_coordinators. rewrite Hh', Hd, lookup_insert_eq. simpl.
  rewrite lookup_delete. by case_decide.
Qed.

Lemma unload_entry_coordinators ok h e eid :
  eid ≠ ConfigEntry.entry_id e →
  entry_coordinators (hass (async_unload_entry ok (State h e)).2) eid
  = entry_coordinators h eid.
Proof.
  intros Hne. destruct ok; [|by rewrite unload_refused].
  rewrite unload_agreed. simpl.
  destruct (HomeAssistant.data h !! DOMAIN) as [d|] eqn:Hd; [|done].
  destruct (d !! ConfigEntry.entry_id e) as [cs|]; [|done].
  destruct (cs !! DATA_DEVICE) as [dc|]; simpl.
  - rewrite (entry_coordinators_pop h _ d (ConfigEntry.entry_id e) eid Hd) by done.
    by rewrite decide_False.
  - rewrite (entry_coordinators_pop h _ d (ConfigEntry.entry_id e) eid Hd) by done.
    by rewrite decide_False.
Qed.

(** Unloading an entry whose coordinators are registered: it returns
    [True], the mapping is gone and the device coordinator is stopped. *)
Lemma unload_registered h e cs dc :
  entry_coordinators h (ConfigEntry.entry_id e) = Some cs →
  cs !! DATA_DEVICE = Some dc →
  ∃ h', async_unload_entry true (State h e) = (Return true, State h' e)
        ∧ entry_coordinators h' (ConfigEntry.entry_id e) = None
        ∧ task_running h' dc = false.
Proof.
  unfold entry_coordinators at 1. intros Hcs Hdc. rewrite unload_agreed. simpl.
  destruct (HomeAssistant.data h !! DOMAIN) as [d|] eqn:Hd; [|done]. simpl in Hcs.
  rewrite Hcs, Hdc. eexists. split; [reflexivity|]. split.
  - rewrite (entry_coordinators_pop h _ d (ConfigEntry.entry_id e)
               (ConfigEntry.entry_id e) Hd) by done.
    by rewrite decide_True.
  - apply task_running_stop.
Qed.

Lemma exec_entry_coordinators h o eid :
  unloads eid o = false → sets_up eid o = false →
  entry_coordinators (exec h o) eid = entry_coordinators h eid.
Proof.
  destruct o as [e refresh|e ok| |e]; simpl; intros Hu Hs.
  - apply bool_decide_eq_false in Hs. by apply setup_entry_coordinators.
  - destruct ok; [|by rewrite unload_refused].
    apply bool_decide_eq_false in Hu. by apply unload_entry_coordinators.
  - unfold entry_coordinators. by rewrite fire_stop_data.
  - unfold entry_coordinators. by rewrite process_on_unload_data.
Qed.

Lemma setup_listener refresh h e l c :
  HomeAssistant.stop_listeners h !! l = Some c →
  HomeAssistant.stop_listeners (hass (async_setup_entry refresh (State h e)).2) !! l
  = Some c.
Proof.
  intros Hl. destruct (setup_cases refresh h e) as [[_ Hd]|(ex & _ & Hf)].
  - rewrite (done_stop_listeners _ _ _ Hd). by apply lookup_app_l_Some.
  - by rewrite (failed_stop_listeners _ _ _ Hf).
Qed.

Lemma unload_listeners ok h e :
  HomeAssistant.stop_listeners (hass (async_unload_entry ok (State h e)).2)
  = HomeAssistant.stop_listeners h.
Proof.
  destruct ok; [|by rewrite unload_refused].
  rewrite unload_agreed. simpl.
  destruct (HomeAssistant.data h !! DOMAIN) as [d|]; [|done].
  destruct (d !! ConfigEntry.entry_id e) as [cs|]; [|done].
  destruct (cs !! DATA_DEVICE) as [dc|]; done.
Qed.

Lemma exec_listener h o l c :
  removes_listener l o = false → o ≠ HomeAssistantStop →
  HomeAssistant.stop_listeners h !! l = Some c →
  HomeAssistant.stop_listeners (exec h o) !! l = Some c.
Proof.
  destruct o as [e refresh|e ok| |e]; simpl; intros Hr Hs Hl.
  - by apply setup_listener.
  - by rewrite unload_listeners.
  - done.
  - apply bool_decide_eq_false in Hr. by rewrite process_on_unload_listener.
Qed.

(** *** The coordinators of an entry in [hass.data] *)

Lemma coordinators_dict_lookups d t s :
  NoDup [DATA_DEVICE; DATA_TRIP; DATA_SUBSCRIPTION] →
  coordinators_dict d t s !! DATA_DEVICE = Some d
  ∧ coordinators_dict d t s !! DATA_TRIP = Some t
  ∧ coordinators_dict d t s !! DATA_SUBSCRIPTION = Some s.
Proof.
  intros Hnd. apply NoDup_cons in Hnd as [Hd Hnd]. apply NoDup_cons in Hnd as [Ht _].
  apply not_elem_of_cons in Hd as [Hdt Hd]. apply not_elem_of_cons in Hd as [Hds _].
  apply not_elem_of_cons in Ht as [Hts _].
  unfold coordinators_dict. split_and!.
  - rewrite lookup_insert_ne, lookup_insert_ne, lookup_insert_eq; done.
  - rewrite lookup_insert_ne, lookup_insert_eq; done.
  - by rewrite lookup_insert_eq.
Qed.

Lemma setup_done_registered h e s1 :
  NoDup [DATA_DEVICE; DATA_TRIP; DATA_SUBSCRIPTION] →
  setup_done h e s1 →
  coordinators_registered (hass s1) (ConfigEntry.entry_id e).
Proof.
  intros Hnd Hd.
  destruct (coordinators_dict_lookups
              (length (HomeAssistant.coordinators h))
              (S (length (HomeAssistant.coordinators h)))
              (S (S (length (HomeAssistant.coordinators h)))) Hnd) as (Hdd & Hdt & Hds).
  pose proof (done_coordinators _ _ _ Hd) as Hcs.
  destruct (lookup_app_three (HomeAssistant.coordinators h)
              (Coordinator.mk DeviceData (length (HomeAssistant.accounts h))
                 (ConfigEntry.entry_id e) true true)
              (Coordinator.mk TripData (length (HomeAssistant.accounts h))
                 (ConfigEntry.entry_id e) true false)
              (Coordinator.mk SubscriptionData (length (HomeAssistant.accounts h))
                 (ConfigEntry.entry_id e) true false)) as (H0 & H1 & H2).
  rewrite <- Hcs in H0, H1, H2.
  eexists _, _, _, (length (HomeAssistant.accounts h)).
  split; [by apply entry_coordinators_done|].
  split_and!; [done|done|done|..]; unfold is_coordinator.
  - eexists. split; [exact H0|done].
  - eexists. split; [exact H1|done].
  - eexists. split; [exact H2|done].
Qed.

Lemma registered_transfer h h' eid :
  coordinators_evolve h h' →
  entry_coordinators h' eid = entry_coordinators h eid →
  coordinators_registered h eid → coordinators_registered h' eid.
Proof.
  intros Hev Hec (d & t & s & a & Hcs & Hd & Ht & Hs & Hcd & Hct & Hcsub).
  exists d, t, s, a. rewrite Hec.
  split_and!; eauto using coordinators_evolve_is_coordinator.
Qed.

Lemma exec_registered h o eid :
  NoDup [DATA_DEVICE; DATA_TRIP; DATA_SUBSCRIPTION] →
  unloads eid o = false →
  coordinators_registered h eid → coordinators_registered (exec h o) eid.
Proof.
  intros Hnd Hu Hreg.
  destruct (sets_up eid o) eqn:Hs.
  - destruct o as [e refresh|e ok| |e]; try discriminate. simpl in *.
    apply bool_decide_eq_true in Hs. subst eid.
    destruct (setup_cases refresh h e) as [[_ Hd]|(ex & _ & Hf)].
    + by apply (setup_done_registered h).
    + eapply registered_transfer; [apply setup_evolve| |done].
      unfold entry_coordinators. by rewrite (failed_data _ _ _ Hf).
  - eapply registered_transfer; [apply exec_evolve| |done].
    by apply exec_entry_coordinators.
Qed.

(** C7: once [async_setup_entry] has returned for an entry, and as long
    as no [async_unload_entry] of that entry has had its platforms
    unload, [hass.data[DOMAIN][entry_id]] maps [DATA_DEVICE],
    [DATA_TRIP] and [DATA_SUBSCRIPTION] to three coordinators of that
    entry, one of each kind, whatever else the host does; such an
    [async_unload_entry] then removes the mapping. *)
Theorem C7_coordinators_registered refresh h e s1 ops :
  NoDup [DATA_DEVICE; DATA_TRIP; DATA_SUBSCRIPTION] →
  async_setup_entry refresh (State h e) = (Return true, s1) →
  Forall (λ o, unloads (ConfigEntry.entry_id e) o = false) ops →
  coordinators_registered (run ops (hass s1)) (ConfigEntry.entry_id e)
  ∧ ∀ e', ConfigEntry.entry_id e' = ConfigEntry.entry_id e →
      (async_unload_entry true (State (run ops (hass s1)) e')).1 = Return true
      ∧ entry_coordinators (exec (run ops (hass s1)) (Unload e' true))
          (ConfigEntry.entry_id e) = None.
Proof.
  intros Hnd Hrun Hops. apply setup_returns_done in Hrun as [_ Hd].
  assert (Hreg : coordinators_registered (run ops (hass s1)) (ConfigEntry.entry_id e)).
  { apply (run_preserves
             (λ h, coordinators_registered h (ConfigEntry.entry_id e))
             (λ o, unloads (ConfigEntry.entry_id e) o = false)); [|done|].
    - intros h' o Ho Hreg. by apply exec_registered.
    - by apply (setup_done_registered h). }
  split; [done|]. intros e' Hid.
  destruct Hreg as (d & t & s & a & Hcs & Hdd & _).
  rewrite <- Hid in Hcs.
  destruct (unload_registered _ e' _ d Hcs Hdd) as (h' & Hun & Hnone & _).
  simpl. rewrite Hun. simpl. by rewrite <- Hid.
Qed.

(** *** The background task *)

(** C3 (amended): [async_setup_entry] starts the push-update task of
    the entry's device coordinator.  Whatever the host does afterwards,
    the task is not running after an [async_unload_entry] of the entry
    whose platforms unload, provided the entry was not set up anew in
    between, nor after the stop event has fired, provided the listener
    registered by the setup was not removed before. *)
Theorem C3_background_task_lifecycle refresh h e s1 :
  NoDup [DATA_DEVICE; DATA_TRIP; DATA_SUBSCRIPTION] →
  async_setup_entry refresh (State h e) = (Return true, s1) →
  let eid := ConfigEntry.entry_id e in
  let dc := length (HomeAssistant.coordinators h) in
  let l := length (HomeAssistant.stop_listeners h) in
  (entry_coordinators (hass s1) eid ≫= (.!! DATA_DEVICE)) = Some dc
  ∧ task_running (hass s1) dc = true
  ∧ HomeAssistant.stop_listeners (hass s1) !! l = Some (Some dc)
  ∧ ConfigEntry._on_unload (entry s1) = ConfigEntry._on_unload e ++ [l]
  ∧ (∀ ops e' ops',
       ConfigEntry.entry_id e' = eid →
       Forall (λ o, sets_up eid o = false) ops →
       task_running (run (ops ++ Unload e' true :: ops') (hass s1)) dc = false)
  ∧ (∀ ops ops',
       Forall (λ o, removes_listener l o = false) ops →
       task_running (run (ops ++ HomeAssistantStop :: ops') (hass s1)) dc = false).
Proof.
  intros Hnd Hrun eid dc l. apply setup_returns_done in Hrun as [_ Hd].
  destruct (coordinators_dict_lookups dc (S dc) (S (S dc)) Hnd) as (Hdd & _ & _).
  assert (Hec : entry_coordinators (hass s1) eid ≫= (.!! DATA_DEVICE) = Some dc).
  { subst eid. rewrite (entry_coordinators_done _ _ _ Hd). simpl. exact Hdd. }
  assert (Hdc : HomeAssistant.coordinators (hass s1) !! dc
                = Some (Coordinator.mk DeviceData (length (HomeAssistant.accounts h))
                          eid true true)).
  { rewrite (done_coordinators _ _ _ Hd). subst dc.
    rewrite lookup_app_r by lia. by rewrite Nat.sub_diag. }
  assert (Hl : HomeAssistant.stop_listeners (hass s1) !! l = Some (Some dc)).
  { rewrite (done_stop_listeners _ _ _ Hd). subst l.
    rewrite lookup_app_r by lia. by rewrite Nat.sub_diag. }
  split_and!; [done| |done| | |].
  - unfold task_running. by rewrite Hdc.
  - rewrite (done_entry _ _ _ Hd). simpl. by rewrite migrated_on_unload.
  - (* unload *)
    intros ops e' ops' Hid Hops. rewrite run_app.
    change (run (Unload e' true :: ops') (run ops (hass s1)))
      with (run ops' (exec (run ops (hass s1)) (Unload e' true))).
    set (J := λ h' : HomeAssistant.t,
           is_Some (HomeAssistant.coordinators h' !! dc)
           ∧ (task_running h' dc = false
              ∨ entry_coordinators h' eid ≫= (.!! DATA_DEVICE) = Some dc)).
    assert (HJ : J (run ops (hass s1))).
    { apply (run_preserves J (λ o, sets_up eid o = false)); [|done|].
      - intros h' o Ho [Hin Hor]. split.
        + eapply coordinators_evolve_is_Some; [apply exec_evolve|done].
        + destruct Hor as [Hoff|Hmap].
          * left. eapply coordinators_evolve_stopped; [apply exec_evolve|done|done].
          * destruct (unloads eid o) eqn:Hu.
            -- left. destruct o as [?|e'' [|]| |?]; try discriminate. simpl in *.
               apply bool_decide_eq_true in Hu.
               destruct (entry_coordinators h' eid) as [cs|] eqn:Hcs; [|done].
               simpl in Hmap. rewrite <- Hu in Hcs.
               destruct (unload_registered _ e'' _ dc Hcs Hmap) as (h'' & Hun & _ & Hoff).
               by rewrite Hun.
            -- right. by rewrite exec_entry_coordinators.
      - split; [by rewrite Hdc|by right]. }
    destruct HJ as [Hin Hor].
    assert (Hoff : task_running (exec (run ops (hass s1)) (Unload e' true)) dc = false).
    { destruct Hor as [Hoff|Hmap].
      - eapply coordinators_evolve_stopped; [apply exec_evolve|done|done].
      - simpl. destruct (entry_coordinators (run ops (hass s1)) eid) as [cs|] eqn:Hcs;
          [|done].
        simpl in Hmap. rewrite <- Hid in Hcs.
        destruct (unload_registered _ e' _ dc Hcs Hmap) as (h'' & Hun & _ & Hoff).
        by rewrite Hun. }
    eapply coordinators_evolve_stopped; [apply run_evolve| |done].
    eapply coordinators_evolve_is_Some; [apply exec_evolve|done].
  - (* stop event *)
    intros ops ops' Hops. rewrite run_app.
    change (run (HomeAssistantStop :: ops') (run ops (hass s1)))
      with (run ops' (fire_stop (run ops (hass s1)))).
    set (L := λ h' : HomeAssistant.t,
           is_Some (HomeAssistant.coordinators h' !! dc)
           ∧ (task_running h' dc = false
              ∨ HomeAssistant.stop_listeners h' !! l = Some (Some dc))).
    assert (HL : L (run ops (hass s1))).
    { apply (run_preserves L (λ o, removes_listener l o = false)); [|done|].
      - intros h' o Ho [Hin Hor]. split.
        + eapply coordinators_evolve_is_Some; [apply exec_evolve|done].
        + destruct Hor as [Hoff|Hlis].
          * left. eapply coordinators_evolve_stopped; [apply exec_evolve|done|done].
          * destruct o as [e0 r0|e0 ok0| |e0].
            -- right. by apply exec_listener.
            -- right. by apply exec_listener.
            -- left. simpl. by eapply fire_stop_stops.
            -- right. by apply exec_listener.
      - split; [by rewrite Hdc|by right]. }
    destruct HL as [Hin Hor].
    assert (Hoff : task_running (fire_stop (run ops (hass s1))) dc = false).
    { destruct Hor as [Hoff|Hlis].
      - eapply coordinators_evolve_stopped; [apply fire_stop_evolve|done|done].
      - by eapply fire_stop_stops. }
    eapply coordinators_evolve_stopped; [apply run_evolve| |done].
    eapply coordinators_evolve_is_Some; [apply fire_stop_evolve|done].
Qed.

(** *** The account and the platforms *)

(** C2: a run of [async_setup_entry] that returns has constructed one
    [Account], from the entry's stored username and password and the
    host's client session, and three coordinators (device, trip,
    subscription), each of which was given that account. *)
Theorem C2_one_account_shared refresh h e s1 :
  async_setup_entry refresh (State h e) = (Return true, s1) →
  ∃ username password,
    PyDict.get CONF_USERNAME (ConfigEntry.data e) = Some username
    ∧ PyDict.get CONF_PASSWORD (ConfigEntry.data e) = Some password
    ∧ HomeAssistant.accounts (hass s1)
      = HomeAssistant.accounts h
        ++ [Account.mk username password (HomeAssistant.clientsession h)]
    ∧ ∃ account cd ct cs,
        account = length (HomeAssistant.accounts h)
        ∧ HomeAssistant.coordinators (hass s1)
          = HomeAssistant.coordinators h ++ [cd; ct; cs]
        ∧ Coordinator.kind <$> [cd; ct; cs] = [DeviceData; TripData; SubscriptionData]
        ∧ Coordinator.account <$> [cd; ct; cs] = [account; account; account]
        ∧ Coordinator.entry <$> [cd; ct; cs]
          = replicate 3 (ConfigEntry.entry_id e).
Proof.
  intros Hrun. apply setup_returns_done in Hrun as [_ Hd].
  destruct (done_username _ _ _ Hd) as [u Hu].
  destruct (done_password _ _ _ Hd) as [p Hp].
  pose proof (done_accounts _ _ _ Hd) as Ha. rewrite Hu, Hp in Ha. simpl in Ha.
  rewrite migrated_data in Hu, Hp.
  apply PyDictFacts.get_remove_Some in Hu, Hp.
  exists u, p. split_and!; [done|done|done|].
  eexists _, _, _, _. split; [reflexivity|].
  split; [apply (done_coordinators _ _ _ Hd)|]. done.
Qed.

Lemma entry_platforms_app h h' eid ps :
  HomeAssistant.platforms h' = HomeAssistant.platforms h ++ [(eid, ps)] →
  entry_platforms h' eid = entry_platforms h eid ++ ps.
Proof.
  intros Heq. unfold entry_platforms. rewrite Heq, filter_app, fmap_app, join_app.
  f_equal. rewrite filter_cons, decide_True by done. simpl. by rewrite app_nil_r.
Qed.

(** C6: a run of [async_setup_entry] that returns has forwarded the
    entry to four platforms: binary sensor, device tracker, sensor and
    switch, in one call, and to no other. *)
Theorem C6_four_platforms refresh h e s1 :
  async_setup_entry refresh (State h e) = (Return true, s1) →
  HomeAssistant.platforms (hass s1)
  = HomeAssistant.platforms h
    ++ [(ConfigEntry.entry_id e, [BINARY_SENSOR; DEVICE_TRACKER; SENSOR; SWITCH])]
  ∧ entry_platforms (hass s1) (ConfigEntry.entry_id e)
    = entry_platforms h (ConfigEntry.entry_id e)
      ++ [BINARY_SENSOR; DEVICE_TRACKER; SENSOR; SWITCH].
Proof.
  intros Hrun. apply setup_returns_done in Hrun as [_ Hd].
  pose proof (done_platforms _ _ _ Hd) as Hp. split; [exact Hp|].
  by apply entry_platforms_app.
Qed.

End Lifecycle.

(** ** The base entity *)

Section Entity.

Context {K : Const}.
Variable Device : Type.
Variable Device_id : Device → string.
Variable Device_name : Device → string.

(** C5: [BikeTraxBaseEntity.__init__] copies two attributes of the
    device, its id and its name: [_attrs] holds them under ["id"] and
    ["name"], and [_attr_device_info] has [(DOMAIN, id)] as its only
    identifier and the name as both model and name.  Two devices with
    the same id and name give the same attributes, whatever else they
    hold. *)
Theorem C5_entity_copies_id_and_name (coordinator : nat) (device : Device) :
  let self := BikeTraxBaseEntity_init Device Device_id Device_name coordinator device in
  _attrs self = [("id", PyStr (Device_id device)); ("name", PyStr (Device_name device))]
  ∧ DeviceInfo.identifiers (_attr_device_info self) = {[ (DOMAIN, Device_id device) ]}
  ∧ DeviceInfo.model (_attr_device_info self) = Some (Device_name device)
  ∧ DeviceInfo.name (_attr_device_info self) = Some (Device_name device)
  ∧ ∀ device',
      Device_id device' = Device_id device →
      Device_name device' = Device_name device →
      let self' :=
        BikeTraxBaseEntity_init Device Device_id Device_name coordinator device' in
      _attrs self' = _attrs self ∧ _attr_device_info self' = _attr_device_info self.
Proof.
  simpl. split_and!; try reflexivity.
  intros device' Hid Hname. by rewrite Hid, Hname.
Qed.

End Entity.

(** ** More about dictionaries *)

Module PyDictMore.
Import PyDict.





Lemma remove_not_in k d : k ∉ keys (remove k d).
Proof. apply PyDictFacts.get_None_keys, PyDictFacts.get_remove_eq. Qed.

End PyDictMore.

(** ** More about the migration *)

Section MigrationMore.

Context {K : Const}.

(** X1: on an entry whose dictionaries have distinct keys, a run of the
    migration that fires leaves [entry.data] as it was without the flag
    and [entry.options] holding the flag under [CONF_READ_ONLY] and the
    other options: the flag first and the others after it in their
    order, unless [entry.options] held just these items already, in
    which case it is left as it was, in its own order.  Both still have
    distinct keys. *)
Theorem X1_migrated_shape h e :
  PyDict.wf (ConfigEntry.data e) →
  PyDict.wf (ConfigEntry.options e) →
  let e' := migrated h e in
  let shape :=
    (CONF_READ_ONLY, data_read_only e)
      :: PyDict.remove CONF_READ_ONLY (ConfigEntry.options e) in
  PyDict.wf (ConfigEntry.data e')
  ∧ PyDict.wf (ConfigEntry.options e')
  ∧ PyDict.keys (ConfigEntry.data e')
    = filter (λ k, k ≠ CONF_READ_ONLY) (PyDict.keys (ConfigEntry.data e))
  ∧ (PyDict.contains CONF_READ_ONLY (ConfigEntry.data e) = true
     ∨ PyDict.keys (ConfigEntry.options e) ≠ PyDict.keys DEFAULT_OPTIONS →
     ConfigEntry.options e'
     = (if PyDict.eqb (ConfigEntry.options e) shape
        then ConfigEntry.options e else shape)
     ∧ ∀ k, PyDict.get k (ConfigEntry.options e') = PyDict.get k shape).
Proof.
  intros Hwd Hwo e' shape. subst e'.
  assert (Hshape : PyDict.set CONF_READ_ONLY (data_read_only e)
                     (PyDict.update DEFAULT_OPTIONS (ConfigEntry.options e))
                   = shape).
  { rewrite update_default_wf by done. simpl. by rewrite decide_True. }
  assert (Hwshape : PyDict.wf shape).
  { unfold PyDict.wf, PyDict.keys, shape. rewrite fmap_cons. apply NoDup_cons. split.
    - apply PyDictMore.remove_not_in.
    - by apply PyDictFacts.wf_remove. }
  split_and!.
  - rewrite migrated_data. by apply PyDictFacts.wf_remove.
  - rewrite migrated_unfold. destruct (_ || _); [|done]. simpl. rewrite Hshape.
    unfold assign_if_changed. by destruct (PyDict.eqb _ _).
  - rewrite migrated_data. apply PyDictFacts.keys_remove.
  - intros Hg. rewrite migrated_unfold. replace (_ || _) with true.
    + simpl. rewrite Hshape. split; [done|].
      intros k. apply assign_if_changed_get.
    + symmetry. apply orb_true_iff. destruct Hg as [->|Hk]; [by left|right].
      apply negb_true_iff, bool_decide_eq_false. exact Hk.
Qed.


End MigrationMore.

(** ** More about setting up and unloading *)

Section LifecycleMore.

Context {K : Const}.

Ltac mrun :=
  cbv beta iota zeta delta
    [async_setup_entry async_unload_entry entry_data_getitem
     async_get_clientsession Account_new Coordinator_new
     async_config_entry_first_refresh hass_data_setdefault hass_data_setitem2
     hass_data_pop2 async_listen_once_stop async_on_unload
     async_setup_platforms async_unload_platforms when mbind M_bind mret M_ret
     gets modify raise getitem with_hass with_entry compose hass entry fst snd].

(** X3: what [async_setup_entry] answers.  It raises [KeyError] for the
    username if the migrated [entry.data] lacks it, else for the password
    if that is lacking, else [ConfigEntryNotReady] if one of the three
    first refreshes fails, and returns [True] otherwise; it never
    returns [False]. *)
Theorem X3_setup_outcome refresh h e :
  (async_setup_entry refresh (State h e)).1 =
  match PyDict.get CONF_USERNAME (ConfigEntry.data (migrated h e)),
        PyDict.get CONF_PASSWORD (ConfigEntry.data (migrated h e)) with
  | None, _ => Raise (KeyError CONF_USERNAME)
  | Some _, None => Raise (KeyError CONF_PASSWORD)
  | Some _, Some _ =>
      if refresh DeviceData && refresh TripData && refresh SubscriptionData
      then Return true
      else Raise ConfigEntryNotReady
  end.
Proof.
  pose proof (migrate_returns h e) as Hmr.
  unfold migrated. mrun.
  destruct (_async_migrate_options_from_data_if_missing (State h e)) as [o [hm em]].
  simpl in Hmr. subst o. simpl.
  destruct (PyDict.get CONF_USERNAME (ConfigEntry.data em)); [|done].
  destruct (PyDict.get CONF_PASSWORD (ConfigEntry.data em)); [|done].
  destruct (refresh DeviceData); [|done].
  destruct (refresh TripData); [|done].
  destruct (refresh SubscriptionData); [|done].
  simpl. destruct (HomeAssistant.data hm !! DOMAIN) eqn:Hd; simpl.
  - by rewrite Hd.
  - by rewrite lookup_insert_eq.
Qed.

Lemma task_running_app_stopped h h' new c :
  HomeAssistant.coordinators h' = HomeAssistant.coordinators h ++ new →
  Forall (λ co, Coordinator.background_task co = false) new →
  task_running h' c = task_running h c.
Proof.
  intros Heq Hnew. unfold task_running. rewrite Heq.
  destruct (decide (c < length (HomeAssistant.coordinators h))%nat) as [Hlt|Hge].
  - by rewrite lookup_app_l.
  - rewrite lookup_app_r by lia.
    rewrite (lookup_ge_None_2 (HomeAssistant.coordinators h) c) by lia. simpl.
    destruct (new !! _) as [co|] eqn:Hco; [|done]. simpl.
    eapply Forall_lookup_1 in Hnew; [|exact Hco]. done.
Qed.

(** X4: a run of [async_setup_entry] that raises has registered nothing:
    [hass.data], the stop listeners and the forwarded platforms are as
    before and no background task was started; the entry is left
    migrated, and at most one account was constructed. *)
Theorem X4_setup_failure_registers_nothing refresh h e ex s' :
  async_setup_entry refresh (State h e) = (Raise ex, s') →
  HomeAssistant.data (hass s') = HomeAssistant.data h
  ∧ HomeAssistant.stop_listeners (hass s') = HomeAssistant.stop_listeners h
  ∧ HomeAssistant.platforms (hass s') = HomeAssistant.platforms h
  ∧ (∀ c, task_running (hass s') c = task_running h c)
  ∧ entry s' = migrated h e
  ∧ (length (HomeAssistant.accounts (hass s'))
     ≤ S (length (HomeAssistant.accounts h)))%nat.
Proof.
  intros Hrun. destruct (setup_cases refresh h e) as [[Hr _]|(ex' & _ & Hf)];
    rewrite Hrun in *; simpl in *; [discriminate|].
  destruct (failed_coordinators _ _ _ Hf) as (new & Hnew & Hoff).
  destruct (failed_accounts _ _ _ Hf) as (newa & Hnewa & Hlen).
  split_and!.
  - apply (failed_data _ _ _ Hf).
  - apply (failed_stop_listeners _ _ _ Hf).
  - apply (failed_platforms _ _ _ Hf).
  - intros c. by eapply task_running_app_stopped.
  - apply (failed_entry _ _ _ Hf).
  - rewrite Hnewa, length_app. lia.
Qed.

(** X5: whatever its outcome, [async_setup_entry] only adds: the
    accounts, coordinators, stop listeners and forwarded platforms that
    were there are still there, unchanged and at the same place, and the
    coordinators of every other entry are mapped as before. *)
Theorem X5_setup_frame refresh h e :
  let h' := hass (async_setup_entry refresh (State h e)).2 in
  HomeAssistant.accounts h `prefix_of` HomeAssistant.accounts h'
  ∧ HomeAssistant.coordinators h `prefix_of` HomeAssistant.coordinators h'
  ∧ HomeAssistant.stop_listeners h `prefix_of` HomeAssistant.stop_listeners h'
  ∧ HomeAssistant.platforms h `prefix_of` HomeAssistant.platforms h'
  ∧ ∀ eid, eid ≠ ConfigEntry.entry_id e →
      entry_coordinators h' eid = entry_coordinators h eid.
Proof.
  intros h'. subst h'.
  split_and!; [| | | |intros eid Hne; by apply setup_entry_coordinators];
    destruct (setup_cases refresh h e) as [[_ Hd]|(ex & _ & Hf)].
  - eexists. apply (done_accounts _ _ _ Hd).
  - destruct (failed_accounts _ _ _ Hf) as (new & Hnew & _). by exists new.
  - eexists. apply (done_coordinators _ _ _ Hd).
  - destruct (failed_coordinators _ _ _ Hf) as (new & Hnew & _). by exists new.
  - eexists. apply (done_stop_listeners _ _ _ Hd).
  - exists []. rewrite app_nil_r. apply (failed_stop_listeners _ _ _ Hf).
  - eexists. apply (done_platforms _ _ _ Hd).
  - exists []. rewrite app_nil_r. apply (failed_platforms _ _ _ Hf).
Qed.

Lemma unload_outcome_cases h e :
  mappings_complete h →
  (async_unload_entry true (State h e)).1 = Return true
  ∨ (async_unload_entry true (State h e)).1 = Raise (KeyError DOMAIN)
  ∨ (async_unload_entry true (State h e)).1 = Raise (KeyError (ConfigEntry.entry_id e)).
Proof.
  intros Hcomplete. rewrite unload_agreed. simpl.
  pose proof (Hcomplete (ConfigEntry.entry_id e)) as Hdev.
  unfold entry_coordinators in *.
  destruct (HomeAssistant.data h !! DOMAIN) as [d|]; simpl in *; [|auto].
  destruct (d !! ConfigEntry.entry_id e) as [cs|]; [|auto].
  destruct (Hdev cs eq_refl) as [dc ->]. auto.
Qed.

(** X6: what [async_unload_entry] answers when the platforms unload,
    on a host whose mappings all have the key [DATA_DEVICE]: [True] if
    [hass.data[DOMAIN]] maps the entry, and otherwise [KeyError], for
    [DOMAIN] if [hass.data] lacks it and for the entry id if not.  When
    it raises, [hass.data], the coordinators and the stop listeners are
    as before. *)
Theorem X6_unload_outcome h e :
  mappings_complete h →
  let r := async_unload_entry true (State h e) in
  r.1 = match HomeAssistant.data h !! DOMAIN with
        | None => Raise (KeyError DOMAIN)
        | Some d =>
            match d !! ConfigEntry.entry_id e with
            | None => Raise (KeyError (ConfigEntry.entry_id e))
            | Some _ => Return true
            end
        end
  ∧ (entry_coordinators h (ConfigEntry.entry_id e) = None →
     HomeAssistant.data (hass r.2) = HomeAssistant.data h
     ∧ HomeAssistant.coordinators (hass r.2) = HomeAssistant.coordinators h
     ∧ HomeAssistant.stop_listeners (hass r.2) = HomeAssistant.stop_listeners h
     ∧ entry r.2 = e).
Proof.
  intros Hcomplete r. subst r. rewrite unload_agreed. simpl.
  pose proof (Hcomplete (ConfigEntry.entry_id e)) as Hdev.
  unfold entry_coordinators in *.
  destruct (HomeAssistant.data h !! DOMAIN) as [d|]; simpl in *; [|done].
  destruct (d !! ConfigEntry.entry_id e) as [cs|]; [|done].
  destruct (Hdev cs eq_refl) as [dc ->]. simpl. split; [done|]. discriminate.
Qed.

Lemma unload_registered_coordinators h e cs dc :
  entry_coordinators h (ConfigEntry.entry_id e) = Some cs →
  cs !! DATA_DEVICE = Some dc →
  let h' := hass (async_unload_entry true (State h e)).2 in
  HomeAssistant.coordinators h'
  = alter (set_background_task false) dc (HomeAssistant.coordinators h)
  ∧ entry_coordinators h' (ConfigEntry.entry_id e) = None.
Proof.
  intros Hcs Hdc h'. subst h'.
  destruct (unload_registered h e cs dc Hcs Hdc) as (h2 & Hun & Hnone & _).
  split; [|by rewrite Hun].
  rewrite unload_agreed. simpl. unfold entry_coordinators in Hcs.
  destruct (HomeAssistant.data h !! DOMAIN) as [d|]; simpl in Hcs; [|done].
  by rewrite Hcs, Hdc.
Qed.

(** X7: [async_unload_entry] of an entry mapped in [hass.data[DOMAIN]],
    the platforms unloading, stops the task of the coordinator under
    [DATA_DEVICE] and of no other, removes no stop listener, and leaves
    the mappings of the other entries as they were. *)
Theorem X7_unload_frame h e cs dc :
  entry_coordinators h (ConfigEntry.entry_id e) = Some cs →
  cs !! DATA_DEVICE = Some dc →
  let h' := hass (async_unload_entry true (State h e)).2 in
  HomeAssistant.coordinators h'
  = alter (set_background_task false) dc (HomeAssistant.coordinators h)
  ∧ (∀ c, c ≠ dc →
       HomeAssistant.coordinators h' !! c = HomeAssistant.coordinators h !! c)
  ∧ HomeAssistant.stop_listeners h' = HomeAssistant.stop_listeners h
  ∧ HomeAssistant.accounts h' = HomeAssistant.accounts h
  ∧ ∀ eid, eid ≠ ConfigEntry.entry_id e →
      entry_coordinators h' eid = entry_coordinators h eid.
Proof.
  intros Hcs Hdc h'.
  assert (Hco : HomeAssistant.coordinators h'
                = alter (set_background_task false) dc (HomeAssistant.coordinators h)).
  { subst h'. rewrite unload_agreed. simpl. unfold entry_coordinators in Hcs.
    destruct (HomeAssistant.data h !! DOMAIN) as [d|]; simpl in Hcs; [|done].
    by rewrite Hcs, Hdc. }
  split_and!.
  - exact Hco.
  - intros c Hne. rewrite Hco. by apply list_lookup_alter_ne.
  - apply unload_listeners.
  - subst h'. rewrite unload_agreed. simpl. unfold entry_coordinators in Hcs.
    destruct (HomeAssistant.data h !! DOMAIN) as [d|]; simpl in Hcs; [|done].
    by rewrite Hcs, Hdc.
  - intros eid Hne. by apply unload_entry_coordinators.
Qed.

(** *** Invariants of the host's steps *)

Lemma exec_mappings_complete h o :
  mappings_complete h → mappings_complete (exec h o).
Proof.
  intros Hc. destruct o as [e refresh|e ok| |e]; simpl; intros eid cs Hcs.
  - destruct (decide (eid = ConfigEntry.entry_id e)) as [->|Hne].
    + destruct (setup_cases refresh h e) as [[_ Hd]|(ex & _ & Hf)].
      * rewrite (entry_coordinators_done _ _ _ Hd) in Hcs.
        injection Hcs as <-. apply coordinators_dict_device.
      * unfold entry_coordinators in Hcs. rewrite (failed_data _ _ _ Hf) in Hcs.
        by apply (Hc (ConfigEntry.entry_id e)).
    + rewrite setup_entry_coordinators in Hcs by done. by apply (Hc eid).
  - destruct (decide (eid = ConfigEntry.entry_id e)) as [->|Hne].
    + destruct ok; [|rewrite unload_refused in Hcs; by apply (Hc (ConfigEntry.entry_id e))].
      rewrite unload_agreed in Hcs. simpl in Hcs.
      destruct (HomeAssistant.data h !! DOMAIN) as [d|] eqn:Hd;
        [|by apply (Hc (ConfigEntry.entry_id e))].
      destruct (d !! ConfigEntry.entry_id e) as [cs0|];
        [|by apply (Hc (ConfigEntry.entry_id e))].
      exfalso. destruct (cs0 !! DATA_DEVICE); simpl in Hcs;
        rewrite (entry_coordinators_pop h _ d (ConfigEntry.entry_id e)
                   (ConfigEntry.entry_id e) Hd) in Hcs by done;
        by rewrite decide_True in Hcs.
    + rewrite unload_entry_coordinators in Hcs by done. by apply (Hc eid).
  - unfold entry_coordinators in Hcs. rewrite fire_stop_data in Hcs. by apply (Hc eid).
  - unfold entry_coordinators in Hcs. rewrite process_on_unload_data in Hcs.
    by apply (Hc eid).
Qed.

(** X8: that every mapping in [hass.data[DOMAIN]] has the key
    [DATA_DEVICE] is kept by whatever the host does; so after any
    history on such a host, [async_unload_entry] with the platforms
    unloading returns [True] or raises [KeyError] for [DOMAIN] or for
    the entry id: the read of [DATA_DEVICE] never fails. *)
Theorem X8_mappings_complete_invariant ops h e :
  mappings_complete h →
  let r := async_unload_entry true (State (run ops h) e) in
  mappings_complete (run ops h)
  ∧ (r.1 = Return true
     ∨ r.1 = Raise (KeyError DOMAIN)
     ∨ r.1 = Raise (KeyError (ConfigEntry.entry_id e))).
Proof.
  intros Hc r.
  assert (Hrun : mappings_complete (run ops h)).
  { apply (run_preserves mappings_complete (λ _, True)); [|by apply Forall_true|done].
    intros h' o _. apply exec_mappings_complete. }
  split; [done|]. by apply unload_outcome_cases.
Qed.

(** *** Which tasks run *)

Lemma task_running_stop_back c0 h c :
  task_running (stop_background_task c0 h) c = true → task_running h c = true.
Proof.
  unfold task_running, stop_background_task, alter_coordinator. simpl.
  destruct (decide (c0 = c)) as [->|Hne].
  - rewrite list_lookup_alter_eq. by destruct (_ !! c).
  - by rewrite list_lookup_alter_ne.
Qed.

Lemma task_running_stop_ne c0 h c :
  c ≠ c0 → task_running (stop_background_task c0 h) c = task_running h c.
Proof.
  intros Hne. unfold task_running, stop_background_task, alter_coordinator. simpl.
  by rewrite list_lookup_alter_ne.
Qed.

Lemma foldl_stop_running_back (ls : list (option nat)) h c :
  task_running
    (foldl (λ h l, from_option (λ c, stop_background_task c h) h l) h ls) c = true →
  task_running h c = true.
Proof.
  revert h. induction ls as [|l ls IH]; intros h; simpl; [done|].
  intros Hrun. apply IH in Hrun. destruct l; simpl in Hrun; [|done].
  by eapply task_running_stop_back.
Qed.

Lemma foldl_stop_untouched (ls : list (option nat)) h c :
  Some c ∉ ls →
  task_running
    (foldl (λ h l, from_option (λ c, stop_background_task c h) h l) h ls) c
  = task_running h c.
Proof.
  revert h. induction ls as [|l ls IH]; intros h Hnot; simpl; [done|].
  apply not_elem_of_cons in Hnot as [Hne Hnot]. rewrite IH by done.
  destruct l as [c0|]; simpl; [|done].
  apply task_running_stop_ne. congruence.
Qed.

Lemma fire_stop_running_back h c :
  task_running (fire_stop h) c = true → task_running h c = true.
Proof.
  unfold fire_stop.
  change (task_running (set_stop_listeners ?x ?h') c) with (task_running h' c).
  apply foldl_stop_running_back.
Qed.

Lemma fire_stop_untouched h c :
  Some c ∉ HomeAssistant.stop_listeners h →
  task_running (fire_stop h) c = task_running h c.
Proof.
  intros Hnot. unfold fire_stop.
  change (task_running (set_stop_listeners ?x ?h') c) with (task_running h' c).
  by apply foldl_stop_untouched.
Qed.

Lemma fire_stop_all h :
  tasks_covered h → ∀ c, task_running (fire_stop h) c = false.
Proof.
  intros Hcov c. destruct (task_running (fire_stop h) c) eqn:Hrun; [|done].
  pose proof (fire_stop_running_back h c Hrun) as Hwas.
  apply Hcov, list_elem_of_lookup_1 in Hwas as [l Hl].
  rewrite (fire_stop_stops h l c Hl) in Hrun. discriminate.
Qed.

Lemma unload_running_back ok h e c :
  task_running (hass (async_unload_entry ok (State h e)).2) c = true →
  task_running h c = true.
Proof.
  destruct ok; [|by rewrite unload_refused].
  rewrite unload_agreed. simpl.
  destruct (HomeAssistant.data h !! DOMAIN) as [d|]; [|done].
  destruct (d !! ConfigEntry.entry_id e) as [cs|]; [|done].
  destruct (cs !! DATA_DEVICE) as [dc|]; simpl; [|done].
  intros Hrun. by apply task_running_stop_back in Hrun.
Qed.

Lemma task_running_done h e s1 c :
  setup_done h e s1 →
  task_running (hass s1) c
  = if decide (c = length (HomeAssistant.coordinators h)) then true
    else task_running h c.
Proof.
  intros Hd. unfold task_running. rewrite (done_coordinators _ _ _ Hd).
  destruct (decide (c < length (HomeAssistant.coordinators h))%nat) as [Hlt|Hge].
  - rewrite lookup_app_l by done. rewrite decide_False by lia. done.
  - rewrite lookup_app_r by lia.
    rewrite (lookup_ge_None_2 (HomeAssistant.coordinators h) c) by lia.
    case_decide as Hc.
    + subst c. by rewrite Nat.sub_diag.
    + destruct (c - length (HomeAssistant.coordinators h)) as [|[|[|n]]] eqn:Hsub;
        [lia|done|done|done].
Qed.

Lemma exec_tasks_covered h o :
  is_on_unload o = false → tasks_covered h → tasks_covered (exec h o).
Proof.
  intros Ho Hcov. destruct o as [e refresh|e ok| |e]; simpl; [| | |done].
  - destruct (setup_cases refresh h e) as [[_ Hd]|(ex & _ & Hf)]; intros c Hrun.
    + rewrite (task_running_done _ _ _ _ Hd) in Hrun.
      rewrite (done_stop_listeners _ _ _ Hd). apply elem_of_app.
      case_decide as Hc; [subst c; right; left|left; by apply Hcov].
    + destruct (failed_coordinators _ _ _ Hf) as (new & Hnew & Hoff).
      rewrite (task_running_app_stopped _ _ _ _ Hnew Hoff) in Hrun.
      rewrite (failed_stop_listeners _ _ _ Hf). by apply Hcov.
  - intros c Hrun. rewrite unload_listeners.
    apply Hcov. by eapply unload_running_back.
  - intros c Hrun. by rewrite fire_stop_all in Hrun.
Qed.

(** X10: on a host where every running task has its stop listener, and
    as long as no unload callback is run, whatever entries are set up
    and unloaded, with whatever outcome, no background task is running
    once the stop event has fired. *)
Theorem X10_stop_event_stops_all ops h :
  tasks_covered h →
  Forall (λ o, is_on_unload o = false) ops →
  ∀ c, task_running (fire_stop (run ops h)) c = false.
Proof.
  intros Hcov Hops. apply fire_stop_all.
  apply (run_preserves tasks_covered (λ o, is_on_unload o = false)); [|done|done].
  intros h' o. apply exec_tasks_covered.
Qed.

(** *** Two entries *)

(** X9: two entries set up one after the other have each a device
    coordinator and an account of their own, and both tasks run;
    unloading the first stops its task and removes its mapping, and
    leaves the task and the mapping of the second. *)
Theorem X9_entries_independent r1 r2 h e1 e2 s1 s2 :
  NoDup [DATA_DEVICE; DATA_TRIP; DATA_SUBSCRIPTION] →
  ConfigEntry.entry_id e1 ≠ ConfigEntry.entry_id e2 →
  async_setup_entry r1 (State h e1) = (Return true, s1) →
  async_setup_entry r2 (State (hass s1) e2) = (Return true, s2) →
  let dc1 := length (HomeAssistant.coordinators h) in
  let dc2 := length (HomeAssistant.coordinators (hass s1)) in
  let h3 := hass (async_unload_entry true (State (hass s2) e1)).2 in
  is_coordinator (hass s2) dc1 DeviceData (ConfigEntry.entry_id e1)
    (length (HomeAssistant.accounts h))
  ∧ is_coordinator (hass s2) dc2 DeviceData (ConfigEntry.entry_id e2)
      (S (length (HomeAssistant.accounts h)))
  ∧ task_running (hass s2) dc1 = true
  ∧ task_running (hass s2) dc2 = true
  ∧ task_running h3 dc1 = false
  ∧ task_running h3 dc2 = true
  ∧ entry_coordinators h3 (ConfigEntry.entry_id e1) = None
  ∧ coordinators_registered h3 (ConfigEntry.entry_id e2).
Proof.
  intros Hnd Hne Hrun1 Hrun2 dc1 dc2 h3.
  apply setup_returns_done in Hrun1 as [_ Hd1].
  apply setup_returns_done in Hrun2 as [_ Hd2].
  destruct (coordinators_dict_lookups dc1 (S dc1) (S (S dc1)) Hnd) as (Hdev1 & _ & _).
  pose proof (done_coordinators _ _ _ Hd1) as Hc1.
  pose proof (done_coordinators _ _ _ Hd2) as Hc2.
  assert (Hlen : dc2 = S (S (S dc1))).
  { subst dc1 dc2. rewrite Hc1, length_app. simpl. lia. }
  assert (Hrun1 : task_running (hass s2) dc1 = true).
  { rewrite (task_running_done _ _ _ _ Hd2). case_decide; [done|].
    rewrite (task_running_done _ _ _ _ Hd1). by rewrite decide_True. }
  assert (Hrun2 : task_running (hass s2) dc2 = true).
  { rewrite (task_running_done _ _ _ _ Hd2). by rewrite decide_True. }
  assert (Hreg1 : coordinators_registered (hass s1) (ConfigEntry.entry_id e1))
    by (by apply (setup_done_registered h)).
  assert (Hreg2 : coordinators_registered (hass s2) (ConfigEntry.entry_id e2))
    by (by apply (setup_done_registered (hass s1))).
  assert (Hmap1 : entry_coordinators (hass s2) (ConfigEntry.entry_id e1)
                  = Some (coordinators_dict dc1 (S dc1) (S (S dc1)))).
  { rewrite (entry_coordinators_done_ne (hass s1) e2 s2) by done.
    by apply entry_coordinators_done. }
  destruct (unload_registered_coordinators (hass s2) e1 _ dc1 Hmap1 Hdev1) as (Hco3 & Hpop).
  fold h3 in Hco3, Hpop.
  split_and!; [| |done|done| | |done|].
  - destruct (lookup_app_three (HomeAssistant.coordinators h)
                (Coordinator.mk DeviceData (length (HomeAssistant.accounts h))
                   (ConfigEntry.entry_id e1) true true)
                (Coordinator.mk TripData (length (HomeAssistant.accounts h))
                   (ConfigEntry.entry_id e1) true false)
                (Coordinator.mk SubscriptionData (length (HomeAssistant.accounts h))
                   (ConfigEntry.entry_id e1) true false)) as (H0 & _ & _).
    rewrite <- Hc1 in H0. eexists.
    split; [rewrite Hc2; apply lookup_app_l_Some; exact H0|done].
  - destruct (lookup_app_three (HomeAssistant.coordinators (hass s1))
                (Coordinator.mk DeviceData (length (HomeAssistant.accounts (hass s1)))
                   (ConfigEntry.entry_id e2) true true)
                (Coordinator.mk TripData (length (HomeAssistant.accounts (hass s1)))
                   (ConfigEntry.entry_id e2) true false)
                (Coordinator.mk SubscriptionData (length (HomeAssistant.accounts (hass s1)))
                   (ConfigEntry.entry_id e2) true false)) as (H0 & _ & _).
    rewrite <- Hc2 in H0. eexists. split; [exact H0|]. simpl. split_and!; [done|done|].
    rewrite (done_accounts _ _ _ Hd1), length_app. simpl. lia.
  - unfold task_running. rewrite Hco3, list_lookup_alter_eq.
    by destruct (_ !! dc1).
  - rewrite <- Hrun2. unfold task_running. rewrite Hco3.
    rewrite list_lookup_alter_ne by lia. done.
  - eapply registered_transfer; [apply unload_evolve| |exact Hreg2].
    by apply unload_entry_coordinators.
Qed.

(** *** Where the stop on shutdown can be lost *)

Lemma foldl_remove_listener_lookup (ls : list nat) h i x :
  HomeAssistant.stop_listeners
    (foldl (λ h l, set_stop_listeners (<[l := None]> (HomeAssistant.stop_listeners h)) h)
       h ls) !! i = Some (Some x) →
  HomeAssistant.stop_listeners h !! i = Some (Some x) ∧ i ∉ ls.
Proof.
  revert h. induction ls as [|l ls IH]; intros h; simpl.
  - intros Hi. split; [done|]. apply not_elem_of_nil.
  - intros Hi. apply IH in Hi as [Hi Hnot]. simpl in Hi.
    destruct (decide (l = i)) as [->|Hne].
    + exfalso.
      destruct (decide (i < length (HomeAssistant.stop_listeners h))%nat) as [Hlt|Hge].
      * rewrite list_lookup_insert_eq in Hi by done. discriminate.
      * rewrite list_insert_ge in Hi by lia.
        rewrite lookup_ge_None_2 in Hi by lia. discriminate.
    + rewrite list_lookup_insert_ne in Hi by done. split; [done|].
      apply not_elem_of_cons. split; [congruence|done].
Qed.

Lemma setup_done_entry_id h e s1 :
  setup_done h e s1 → ConfigEntry.entry_id (entry s1) = ConfigEntry.entry_id e.
Proof.
  intros Hd. rewrite (done_entry _ _ _ Hd). simpl. apply migrated_entry_id.
Qed.

(** X11: the stop listener that the setup registers is removed by the
    entry's unload callbacks, whether or not the task was stopped.  On
    a host whose listeners hold existing coordinators: if the platforms
    refuse to unload and the callbacks are run all the same, no
    listener holds the device coordinator any more, its task is still
    running, and it is still running after the stop event. *)
Theorem X11_unload_callbacks_drop_stop_listener refresh h e s1 :
  listeners_valid h →
  async_setup_entry refresh (State h e) = (Return true, s1) →
  let dc := length (HomeAssistant.coordinators h) in
  let h2 := process_on_unload (entry s1) (hass (async_unload_entry false s1).2) in
  (Some dc ∉ HomeAssistant.stop_listeners h2)
  ∧ task_running h2 dc = true
  ∧ task_running (fire_stop h2) dc = true.
Proof.
  intros Hvalid Hrun dc h2. apply setup_returns_done in Hrun as [_ Hd].
  destruct s1 as [h1 e1]. subst h2. rewrite unload_refused. simpl.
  assert (Hrun1 : task_running (process_on_unload e1 h1) dc = true).
  { unfold task_running. rewrite process_on_unload_coordinators.
    change (task_running (hass (State h1 e1)) dc = true).
    rewrite (task_running_done _ _ _ _ Hd). by rewrite decide_True. }
  assert (Hnot : Some dc ∉ HomeAssistant.stop_listeners (process_on_unload e1 h1)).
  { intros Hin. apply list_elem_of_lookup_1 in Hin as [i Hi].
    apply foldl_remove_listener_lookup in Hi as [Hi Hcb].
    pose proof (done_stop_listeners _ _ _ Hd) as Hls. simpl in Hls.
    pose proof (done_entry _ _ _ Hd) as He1. simpl in He1.
    rewrite He1 in Hcb. simpl in Hcb. rewrite not_elem_of_app in Hcb.
    destruct Hcb as [_ Hcb]. apply not_elem_of_cons in Hcb as [Hil _].
    rewrite Hls in Hi.
    destruct (decide (i < length (HomeAssistant.stop_listeners h))%nat) as [Hlt|Hge].
    - rewrite lookup_app_l in Hi by done.
      apply list_elem_of_lookup_2, Hvalid in Hi. subst dc. lia.
    - rewrite lookup_app_r in Hi by lia.
      destruct (i - length (HomeAssistant.stop_listeners h)) as [|n] eqn:Hsub;
        [lia|discriminate]. }
  split_and!; [done|done|]. by rewrite fire_stop_untouched.
Qed.

(** X12: a second [async_setup_entry] of an entry that was not unloaded
    maps the entry to new coordinators: the unload that follows stops
    the second device coordinator only, and the task of the first keeps
    running with no mapping left; the stop event still stops it. *)
Theorem X12_second_setup_orphans_task r1 r2 h e s1 s2 :
  NoDup [DATA_DEVICE; DATA_TRIP; DATA_SUBSCRIPTION] →
  async_setup_entry r1 (State h e) = (Return true, s1) →
  async_setup_entry r2 s1 = (Return true, s2) →
  let dc1 := length (HomeAssistant.coordinators h) in
  let dc2 := length (HomeAssistant.coordinators (hass s1)) in
  let h3 := hass (async_unload_entry true s2).2 in
  entry_coordinators (hass s2) (ConfigEntry.entry_id e) ≫= (.!! DATA_DEVICE) = Some dc2
  ∧ task_running h3 dc2 = false
  ∧ task_running h3 dc1 = true
  ∧ entry_coordinators h3 (ConfigEntry.entry_id e) = None
  ∧ task_running (fire_stop h3) dc1 = false.
Proof.
  intros Hnd Hrun1 Hrun2 dc1 dc2 h3.
  apply setup_returns_done in Hrun1 as [_ Hd1].
  destruct s1 as [h1 e1].
  apply setup_returns_done in Hrun2 as [_ Hd2].
  destruct s2 as [h2 e2]. simpl in *.
  pose proof (setup_done_entry_id _ _ _ Hd1) as Hid1.
  pose proof (setup_done_entry_id _ _ _ Hd2) as Hid2. simpl in Hid1, Hid2.
  destruct (coordinators_dict_lookups dc2 (S dc2) (S (S dc2)) Hnd) as (Hdev2 & _ & _).
  pose proof (entry_coordinators_done _ _ _ Hd2) as Hmap2. simpl in Hmap2.
  fold dc2 in Hmap2.
  assert (Hlen : dc2 = S (S (S dc1))).
  { pose proof (done_coordinators _ _ _ Hd1) as Hc1. simpl in Hc1.
    subst dc1 dc2. rewrite Hc1, length_app. simpl. lia. }
  rewrite <- Hid2 in Hmap2.
  destruct (unload_registered_coordinators h2 e2 _ dc2 Hmap2 Hdev2) as (Hco3 & Hpop).
  fold h3 in Hco3, Hpop.
  assert (Hrun3 : task_running h3 dc1 = true).
  { unfold task_running. rewrite Hco3, list_lookup_alter_ne by lia.
    change (task_running (hass (State h2 e2)) dc1 = true).
    rewrite (task_running_done _ _ _ _ Hd2). simpl. case_decide; [done|].
    change (task_running (hass (State h1 e1)) dc1 = true).
    rewrite (task_running_done _ _ _ _ Hd1). by rewrite decide_True. }
  split_and!.
  - rewrite <- Hid1, <- Hid2, Hmap2. exact Hdev2.
  - unfold task_running. rewrite Hco3, list_lookup_alter_eq. by destruct (_ !! dc2).
  - exact Hrun3.
  - by rewrite <- Hid1, <- Hid2.
  - apply (fire_stop_stops h3 (length (HomeAssistant.stop_listeners h)) dc1).
    pose proof (done_stop_listeners _ _ _ Hd1) as Hl1.
    pose proof (done_stop_listeners _ _ _ Hd2) as Hl2. simpl in Hl1, Hl2.
    subst h3. rewrite unload_listeners, Hl2. apply lookup_app_l_Some.
    rewrite Hl1, lookup_app_r by lia. by rewrite Nat.sub_diag.
Qed.

End LifecycleMore.
(** ** The claims at concrete entries *)

(** C1, as the specification words it, does not hold of an entry that
    was migrated before with the flag set: the guard skips it, and the
    option keeps its value [True] while [data] holds no flag. *)
Lemma C1_counterexample :
  ¬ flag_migrated (K := biketrax_const) entry_migrated
      (migrated (K := biketrax_const) hass0 entry_migrated).
Proof. intros [Hopt _]. vm_compute in Hopt. discriminate. Qed.

(** C1 at the legacy entry: the flag [True] moves to the options. *)
Lemma C1_migration_moves_flag_witness :
  flag_migrated (K := biketrax_const) entry_legacy
    (migrated (K := biketrax_const) hass0 entry_legacy).
Proof.
  apply (C1_migration_moves_flag (K := biketrax_const) hass0 entry_legacy).
  left. reflexivity.
Defined.

(** C8, for every entry, does not hold: with one more option stored,
    the first run moves the flag [True] to the options and the second
    run resets it to [False]. *)
Lemma C8_counterexample :
  let s1 := (_async_migrate_options_from_data_if_missing (K := biketrax_const)
               (State hass0 entry_extra_option)).2 in
  let s2 := (_async_migrate_options_from_data_if_missing (K := biketrax_const) s1).2 in
  PyDict.get "read_only" (ConfigEntry.options (entry s1)) = Some (PyBool true)
  ∧ PyDict.get "read_only" (ConfigEntry.options (entry s2)) = Some (PyBool false)
  ∧ entry s2 ≠ entry s1.
Proof. vm_compute. split_and!; [reflexivity|reflexivity|discriminate]. Qed.

(** C8 at the legacy entry, which has no options. *)
Lemma C8_migration_idempotent_witness :
  let s1 := (_async_migrate_options_from_data_if_missing (K := biketrax_const)
               (State hass0 entry_legacy)).2 in
  let s2 := (_async_migrate_options_from_data_if_missing (K := biketrax_const) s1).2 in
  entry s2 = entry s1.
Proof.
  apply (C8_migration_idempotent (K := biketrax_const) hass0 entry_legacy).
  left. simpl. intros k Hk. inversion Hk.
Defined.

(** C9 at the entry with one more option: it is kept. *)
Lemma C9_migration_frame_witness :
  PyDict.get "units"
    (ConfigEntry.options (migrated (K := biketrax_const) hass0 entry_extra_option))
  = Some (PyStr "km").
Proof.
  destruct (C9_migration_frame (K := biketrax_const) hass0 entry_extra_option)
    as (Hget & _).
  - apply (bool_decide_unpack _). vm_compute. exact I.
  - destruct (Hget "units") as [_ Hopt]; [discriminate|]. exact Hopt.
Defined.

(** C2 at the legacy entry: the account of the rider. *)
Lemma C2_one_account_shared_witness :
  HomeAssistant.accounts (hass sample_setup.2)
  = [Account.mk (PyStr "rider") (PyStr "secret") 0]
  ∧ Coordinator.account <$> HomeAssistant.coordinators (hass sample_setup.2)
    = [0; 0; 0].
Proof.
  destruct (C2_one_account_shared (K := biketrax_const) refresh_ok hass0 entry_legacy
              sample_setup.2)
    as (u & p & Hu & Hp & Ha & a & cd & ct & cs & -> & Hc & _ & Hca & _).
  - vm_compute. reflexivity.
  - vm_compute in Hu, Hp. injection Hu as <-. injection Hp as <-.
    split; [exact Ha|]. rewrite Hc. exact Hca.
Defined.

(** C3 at the legacy entry: the task runs after the setup; it does not
    after a refused and then an agreed unload, nor after a refused
    unload and the stop event. *)
Lemma C3_background_task_lifecycle_witness :
  task_running (hass sample_setup.2) 0 = true
  ∧ task_running
      (run (K := biketrax_const)
         [Unload entry_legacy false; Unload entry_legacy true] (hass sample_setup.2)) 0
    = false
  ∧ task_running
      (run (K := biketrax_const)
         [Unload entry_legacy false; HomeAssistantStop] (hass sample_setup.2)) 0
    = false.
Proof.
  destruct (C3_background_task_lifecycle (K := biketrax_const) refresh_ok hass0
              entry_legacy sample_setup.2)
    as (_ & Hon & _ & _ & Hunload & Hstop).
  - apply (bool_decide_unpack _). vm_compute. exact I.
  - vm_compute. reflexivity.
  - split_and!.
    + exact Hon.
    + apply (Hunload [Unload entry_legacy false] entry_legacy []); [reflexivity|].
      repeat constructor.
    + apply (Hstop [Unload entry_legacy false] []). repeat constructor.
Defined.

(** C3, as the specification words it, does not hold.  After the
    setup of the legacy entry, the task of its device coordinator is
    still running after the stop event when the platforms refused an
    unload and the entry's unload callbacks, which remove the stop
    listener, were run before; and it is still running after an unload
    whose platforms unload when the entry was set up anew before, the
    mapping then being that of the new coordinators. *)
Lemma C3_counterexample :
  ¬ stopped_after_stop_event (K := biketrax_const) (hass sample_setup.2) 0
  ∧ ¬ stopped_after_unload (K := biketrax_const) (hass sample_setup.2) "e1" 0.
Proof.
  split.
  - intros Hstop.
    specialize (Hstop [Unload entry_legacy false; OnUnload (entry sample_setup.2)] []).
    vm_compute in Hstop. discriminate.
  - intros Hunload.
    specialize (Hunload [Setup entry_legacy refresh_ok] entry_legacy [] eq_refl).
    vm_compute in Hunload. discriminate.
Qed.

(** C4 at the legacy entry. *)
Lemma C4_setup_unload_roundtrip_witness :
  ∃ s2,
    async_unload_entry (K := biketrax_const) true sample_setup.2 = (Return true, s2)
    ∧ entry_coordinators (K := biketrax_const) (hass s2) "e1" = None.
Proof.
  destruct (C4_setup_unload_roundtrip (K := biketrax_const) refresh_ok hass0
              entry_legacy sample_setup.2) as (s2 & Hun & Hnone & _).
  - vm_compute. reflexivity.
  - exists s2. split; [exact Hun|exact Hnone].
Defined.

(** C5 at a device that holds a battery level too: the level is not
    looked at. *)
Lemma C5_entity_copies_id_and_name_witness :
  let init := BikeTraxBaseEntity_init (K := biketrax_const)
                SampleDevice sample_id sample_name 0 in
  _attrs (init (Build_SampleDevice "bike-1" "My bike" 80))
  = [("id", PyStr "bike-1"); ("name", PyStr "My bike")]
  ∧ _attrs (init (Build_SampleDevice "bike-1" "My bike" 15))
    = _attrs (init (Build_SampleDevice "bike-1" "My bike" 80))
  ∧ _attr_device_info (init (Build_SampleDevice "bike-1" "My bike" 15))
    = _attr_device_info (init (Build_SampleDevice "bike-1" "My bike" 80)).
Proof.
  destruct (C5_entity_copies_id_and_name (K := biketrax_const)
              SampleDevice sample_id sample_name 0
              (Build_SampleDevice "bike-1" "My bike" 80))
    as (Hattrs & _ & _ & _ & Hsame).
  split; [exact Hattrs|].
  apply (Hsame (Build_SampleDevice "bike-1" "My bike" 15)); reflexivity.
Defined.

(** C6 at the legacy entry. *)
Lemma C6_four_platforms_witness :
  entry_platforms (hass sample_setup.2) "e1"
  = [BINARY_SENSOR; DEVICE_TRACKER; SENSOR; SWITCH].
Proof.
  destruct (C6_four_platforms (K := biketrax_const) refresh_ok hass0 entry_legacy
              sample_setup.2) as (_ & Hp).
  - vm_compute. reflexivity.
  - exact Hp.
Defined.

(** C7 at the legacy entry: the mapping is there after a refused unload
    and the stop event. *)
Lemma C7_coordinators_registered_witness :
  coordinators_registered (K := biketrax_const)
    (run (K := biketrax_const)
       [Unload entry_legacy false; HomeAssistantStop] (hass sample_setup.2)) "e1".
Proof.
  apply (C7_coordinators_registered (K := biketrax_const) refresh_ok hass0
           entry_legacy sample_setup.2
           [Unload entry_legacy false; HomeAssistantStop]).
  - apply (bool_decide_unpack _). vm_compute. exact I.
  - vm_compute. reflexivity.
  - repeat constructor.
Defined.

(** ** The further properties at concrete entries *)

(** X1 at the entry with one more option, where the flag comes to the
    head, and at the entry whose options hold the flag last, which are
    left in their order. *)
Lemma X1_migrated_shape_witness :
  ConfigEntry.options (migrated (K := biketrax_const) hass0 entry_extra_option)
  = [("read_only", PyBool true); ("units", PyStr "km")]
  ∧ ConfigEntry.options (migrated (K := biketrax_const) hass0 entry_flag_last)
    = [("units", PyStr "km"); ("read_only", PyBool false)].
Proof.
  split.
  - destruct (X1_migrated_shape (K := biketrax_const) hass0 entry_extra_option)
      as (_ & _ & _ & Hshape).
    + apply (bool_decide_unpack _). vm_compute. exact I.
    + apply (bool_decide_unpack _). vm_compute. exact I.
    + destruct Hshape as [-> _]; [left; reflexivity|]. vm_compute. reflexivity.
  - destruct (X1_migrated_shape (K := biketrax_const) hass0 entry_flag_last)
      as (_ & _ & _ & Hshape).
    + apply (bool_decide_unpack _). vm_compute. exact I.
    + apply (bool_decide_unpack _). vm_compute. exact I.
    + destruct Hshape as [-> _]; [right; discriminate|]. vm_compute. reflexivity.
Defined.

(** X4 at the legacy entry when the trips cannot be fetched. *)
Lemma X4_setup_failure_registers_nothing_witness :
  let r := async_setup_entry (K := biketrax_const) refresh_trip_fails
             (State hass0 entry_legacy) in
  r.1 = Raise ConfigEntryNotReady
  ∧ HomeAssistant.stop_listeners (hass r.2) = []
  ∧ task_running (hass r.2) 0 = false.
Proof.
  intros r.
  destruct (X4_setup_failure_registers_nothing (K := biketrax_const)
              refresh_trip_fails hass0 entry_legacy ConfigEntryNotReady r.2)
    as (_ & Hl & _ & Ht & _).
  - vm_compute. reflexivity.
  - split_and!; [vm_compute; reflexivity|exact Hl|exact (Ht 0)].
Defined.

(** X6 on the empty host: there is nothing to unload. *)
Lemma X6_unload_outcome_witness :
  (async_unload_entry (K := biketrax_const) true (State hass0 entry_legacy)).1
  = Raise (KeyError "biketrax").
Proof.
  destruct (X6_unload_outcome (K := biketrax_const) hass0 entry_legacy) as [Hout _].
  - intros eid cs Hcs. vm_compute in Hcs. discriminate.
  - rewrite Hout. vm_compute. reflexivity.
Defined.

(** X7 at the legacy entry: its stop listener stays. *)
Lemma X7_unload_frame_witness :
  HomeAssistant.stop_listeners
    (hass (async_unload_entry (K := biketrax_const) true
             (State (hass sample_setup.2) (entry sample_setup.2))).2)
  = [Some 0].
Proof.
  destruct (X7_unload_frame (K := biketrax_const) (hass sample_setup.2)
              (entry sample_setup.2)
              (coordinators_dict (K := biketrax_const) 0 1 2) 0)
    as (_ & _ & Hl & _).
  - vm_compute. reflexivity.
  - vm_compute. reflexivity.
  - rewrite Hl. vm_compute. reflexivity.
Defined.

(** X8 from the empty host: a second unload raises for the entry id. *)
Lemma X8_mappings_complete_invariant_witness :
  (async_unload_entry (K := biketrax_const) true
     (State
        (run (K := biketrax_const)
           [Setup entry_legacy refresh_ok; Setup entry_second refresh_ok;
            Unload entry_legacy true] hass0)
        entry_legacy)).1
  = Raise (KeyError "e1").
Proof.
  destruct (X8_mappings_complete_invariant (K := biketrax_const)
              [Setup entry_legacy refresh_ok; Setup entry_second refresh_ok;
               Unload entry_legacy true] hass0 entry_legacy)
    as [_ [Hr|[Hr|Hr]]].
  - intros eid cs Hcs. vm_compute in Hcs. discriminate.
  - vm_compute in Hr. discriminate.
  - vm_compute in Hr. discriminate.
  - exact Hr.
Defined.

(** X9 at the legacy and the second entry. *)
Lemma X9_entries_independent_witness :
  let h3 := hass (async_unload_entry (K := biketrax_const) true
                    (State (hass sample_setup_second.2) entry_legacy)).2 in
  task_running h3 (length (HomeAssistant.coordinators hass0)) = false
  ∧ task_running h3 (length (HomeAssistant.coordinators (hass sample_setup.2))) = true.
Proof.
  destruct (X9_entries_independent (K := biketrax_const) refresh_ok refresh_ok
              hass0 entry_legacy entry_second sample_setup.2 sample_setup_second.2)
    as (_ & _ & _ & _ & Hoff & Hon & _).
  - apply (bool_decide_unpack _). vm_compute. exact I.
  - discriminate.
  - vm_compute. reflexivity.
  - vm_compute. reflexivity.
  - split; [exact Hoff|exact Hon].
Defined.

(** X10 from the empty host: two entries set up, one unload refused;
    neither device coordinator runs its task after the stop event. *)
Lemma X10_stop_event_stops_all_witness :
  let h := fire_stop
             (run (K := biketrax_const)
                [Setup entry_legacy refresh_ok; Setup entry_second refresh_ok;
                 Unload entry_legacy false] hass0) in
  task_running h 0 = false ∧ task_running h 3 = false.
Proof.
  assert (Hall := X10_stop_event_stops_all (K := biketrax_const)
            [Setup entry_legacy refresh_ok; Setup entry_second refresh_ok;
             Unload entry_legacy false] hass0).
  split; apply Hall.
  - intros c Hc. vm_compute in Hc. destruct c; discriminate.
  - repeat constructor.
  - intros c Hc. vm_compute in Hc. destruct c; discriminate.
  - repeat constructor.
Defined.

(** X11 at the legacy entry. *)
Lemma X11_unload_callbacks_drop_stop_listener_witness :
  task_running
    (fire_stop
       (process_on_unload (entry sample_setup.2)
          (hass (async_unload_entry (K := biketrax_const) false sample_setup.2).2))) 0
  = true.
Proof.
  destruct (X11_unload_callbacks_drop_stop_listener (K := biketrax_const)
              refresh_ok hass0 entry_legacy sample_setup.2) as (_ & _ & Hon).
  - intros c Hc. vm_compute in Hc. inversion Hc.
  - vm_compute. reflexivity.
  - exact Hon.
Defined.

(** X12 at the legacy entry set up twice. *)
Lemma X12_second_setup_orphans_task_witness :
  let h3 := hass (async_unload_entry (K := biketrax_const) true sample_setup_again.2).2 in
  task_running h3 (length (HomeAssistant.coordinators (hass sample_setup.2))) = false
  ∧ task_running h3 (length (HomeAssistant.coordinators hass0)) = true
  ∧ task_running (fire_stop h3) (length (HomeAssistant.coordinators hass0)) = false.
Proof.
  destruct (X12_second_setup_orphans_task (K := biketrax_const) refresh_ok refresh_ok
              hass0 entry_legacy sample_setup.2 sample_setup_again.2)
    as (_ & Hoff2 & Hon1 & _ & Hstop).
  - apply (bool_decide_unpack _). vm_compute. exact I.
  - vm_compute. reflexivity.
  - vm_compute. reflexivity.
  - split_and!; [exact Hoff2|exact Hon1|exact Hstop].
Defined.
